(** * The retrieval-augmented question-answering pipeline

    A shallow embedding of [examples/ai-assisted-qa/rag-implementation]:
    [rag_pipeline.py] (configuration, document chunking, vector store
    wrapper, query orchestration, session memory) and [api.py] (the HTTP
    handlers in front of it).

    Conventions.
    - Python [int] is [Z]; Python [float] is a binary64 [float] of the kernel,
      so the literals [0.5], [0.7], [0.9] round exactly as they do in Python.
    - Python [str] is [string]; [len] is [String.length] (one character per
      code point, code points below 256).
    - A [dict] with string keys is a [gmap string _].
    - A call that may raise returns a [Res]; state that survives an exception
      is threaded explicitly.
    - The hosted services and the libraries wrapping them (the embedding and
      completion models, the Chroma collection, the retrieval chain) are an
      [External] record of functions: the theorems hold whatever they
      answer.
    - The text splitter is a library class. The chunker takes the splitter
      as a variable; the library's algorithm has a module of its own.
    - The directory walk, the reading of files and the tokenizer are a
      [FileSystem] record of functions, in the same way.
    - A store object has a length, the number of its chunks, so it is false
      in a Python test when it holds none: the handlers' test
      [not ...vectorstore] fails on [None] and on an empty store. *)

From Stdlib Require Import ZArith List String Ascii Bool Lia.
From Stdlib Require Import Sorting.Sorted.
From Stdlib Require Import Floats.PrimFloat.
From Stdlib Require Floats.FloatAxioms Floats.SpecFloat.
From stdpp Require Import gmap strings list.

Set Warnings "-inexact-float".
Local Open Scope string_scope.
Local Open Scope list_scope.
Local Open Scope Z_scope.

(** ** Python values *)

Inductive PyExn : Type :=
| ValueError (msg : string)
| IndexError
| KeyError (key : string)
| AttributeError (msg : string)
| ValidationError (msg : string)
| ExternalError (msg : string).

Inductive Res (A : Type) : Type :=
| Ok (a : A)
| Raise (e : PyExn).
Arguments Ok {A} a.
Arguments Raise {A} e.

Definition res_bind {A B} (r : Res A) (f : A -> Res B) : Res B :=
  match r with
  | Ok a => f a
  | Raise e => Raise e
  end.

Notation "x <- r ;; k" := (res_bind r (fun x => k))
  (at level 100, r at next level, right associativity).

Definition is_ok {A} (r : Res A) : bool :=
  match r with Ok _ => true | Raise _ => false end.

(** [len(s)] and [len(l)]. *)
Definition len (s : string) : Z := Z.of_nat (String.length s).
Definition llen {A} (l : list A) : Z := Z.of_nat (length l).

(** A metadata value: the loader stores strings and a token count, the
    chunker adds two integers. *)
Inductive MetaVal : Type :=
| MStr (s : string)
| MInt (n : Z).

#[global] Instance MetaVal_eq_dec : EqDecision MetaVal.
Proof. solve_decision. Defined.

(** [langchain.docstore.document.Document]. *)
Record Document : Type := mkDocument {
  page_content : string;
  metadata : gmap string MetaVal
}.

(** ** [RAGConfig] *)

Record RAGConfig : Type := mkRAGConfig {
  openai_api_key : string;
  embedding_model : string;
  llm_model : string;
  temperature : float;
  chroma_persist_directory : string;
  collection_name : string;
  chunk_size : Z;
  chunk_overlap : Z;
  top_k_results : Z;
  similarity_threshold : float;
  max_history_length : Z;
  max_tokens : Z
}.

(** The dataclass defaults; the API key comes from the environment. *)
Definition RAGConfig_default (api_key : string) : RAGConfig :=
  {| openai_api_key := api_key;
     embedding_model := "text-embedding-3-small";
     llm_model := "gpt-4-turbo-preview";
     temperature := 0.1%float;
     chroma_persist_directory := "./chroma_db";
     collection_name := "qa_knowledge_base";
     chunk_size := 1000;
     chunk_overlap := 200;
     top_k_results := 3;
     similarity_threshold := 0.7%float;
     max_history_length := 5;
     max_tokens := 8000 |}.

(** ** [RAGPipeline._calculate_confidence] *)

Definition _calculate_confidence (source_docs : list Document) : float :=
  match source_docs with
  | [] => 0.0%float
  | _ =>
      let num_sources := llen source_docs in
      if 3 <=? num_sources then 0.9%float
      else if num_sources =? 2 then 0.7%float
      else 0.5%float
  end.

(** The table of section 4.5, step 5, read off the specification: the
    confidence as a function of the number of sources. *)
Definition confidence_of_count (n : nat) : float :=
  match n with
  | O => 0.0%float
  | 1%nat => 0.5%float
  | 2%nat => 0.7%float
  | _ => 0.9%float
  end.

(** [0 <= x <= 1] on binary64 values. *)
Definition in_unit_interval (x : float) : bool :=
  PrimFloat.leb 0%float x && PrimFloat.leb x 1%float.

(** ** Python string operations used by the text splitter *)

(** [c.isspace()] for a code point below 256. *)
Definition py_isspace (c : ascii) : bool :=
  let n := Z.of_nat (nat_of_ascii c) in
  ((9 <=? n) && (n <=? 13)) || ((28 <=? n) && (n <=? 32))
  || (n =? 133) || (n =? 160).

(** [s.lstrip()], [s.rstrip()] and [s.strip()]. *)
Fixpoint py_lstrip (s : string) : string :=
  match s with
  | EmptyString => EmptyString
  | String c t => if py_isspace c then py_lstrip t else s
  end.

Fixpoint py_rstrip (s : string) : string :=
  match s with
  | EmptyString => EmptyString
  | String c t =>
      match py_rstrip t with
      | EmptyString => if py_isspace c then EmptyString else String c EmptyString
      | t' => String c t'
      end
  end.

Definition py_strip (s : string) : string := py_rstrip (py_lstrip s).

(** [separator.join(docs)]. *)
Definition py_join (separator : string) (docs : list string) : string :=
  String.concat separator docs.

(** [list(text)]: the characters, each a string of length one. *)
Fixpoint py_chars (text : string) : list string :=
  match text with
  | EmptyString => []
  | String c t => String c EmptyString :: py_chars t
  end.

(** [re.search(re.escape(sep), text) is not None]: [sep] occurs in [text]. *)
Fixpoint py_contains (sep text : string) : bool :=
  String.prefix sep text
  || match text with
     | EmptyString => false
     | String _ t => py_contains sep t
     end.

(** [re.split] on an escaped, non-empty literal: the leftmost occurrences,
    none overlapping. With [capture] the pattern is parenthesised and every
    separator is kept as an element of its own between two pieces. [skip]
    counts the characters of the current occurrence still to pass over and
    [cur] is the piece read so far. *)
Fixpoint re_split_go (capture : bool) (sep : string) (skip : nat)
    (cur : string) (text : string) : list string :=
  match text with
  | EmptyString => [cur]
  | String c t =>
      match skip with
      | S n => re_split_go capture sep n cur t
      | O =>
          if String.prefix sep text
          then cur :: (if capture then [sep] else [])
                   ++ re_split_go capture sep (String.length sep - 1) EmptyString t
          else re_split_go capture sep O (cur +:+ String c EmptyString) t
      end
  end.

Definition re_split (capture : bool) (sep text : string) : list string :=
  re_split_go capture sep O EmptyString text.

(** ** [langchain.text_splitter.RecursiveCharacterTextSplitter]

    The splitter is a class of the langchain library, imported by
    [rag_pipeline.py] and configured in [DocumentProcessor.__init__]; the
    repository holds no copy of it. The chunker below is stated over an
    arbitrary [split_text]; this module follows the library's implementation
    (langchain 0.1, [text_splitter.py]) for the claims that the splitter's
    own behaviour decides. *)

Record TextSplitter : Type := mkTextSplitter {
  _chunk_size : Z;
  _chunk_overlap : Z;
  _separators : list string;
  _keep_separator : bool;
  _strip_whitespace : bool
}.

Module RecursiveCharacterTextSplitter.

(** [TextSplitter.__init__] rejects an overlap larger than the chunk size;
    [keep_separator] and [strip_whitespace] keep their defaults. *)
Definition __init__ (chunk_size chunk_overlap : Z) (separators : list string)
    : Res TextSplitter :=
  if chunk_size <? chunk_overlap
  then Raise (ValueError "Got a larger chunk overlap than chunk size, should be smaller.")
  else Ok {| _chunk_size := chunk_size;
             _chunk_overlap := chunk_overlap;
             _separators := separators;
             _keep_separator := true;
             _strip_whitespace := true |}.

(** [[_splits[i] + _splits[i + 1] for i in range(1, len(_splits), 2)]] on
    the elements from index 1 on; a last element without a partner is the
    [IndexError] of [_splits[i + 1]]. *)
Fixpoint pair_up (l : list string) : Res (list string) :=
  match l with
  | [] => Ok []
  | [_] => Raise IndexError
  | s :: p :: rest => ps <- pair_up rest ;; Ok ((s +:+ p) :: ps)
  end.

Definition nonempty (s : string) : bool := negb (String.eqb s EmptyString).

Definition _split_text_with_regex (text separator : string)
    (keep_separator : bool) : Res (list string) :=
  splits <-
    (if String.eqb separator EmptyString then Ok (py_chars text)
     else if keep_separator then
       let _splits := re_split true separator text in
       splits <- pair_up (tl _splits) ;;
       let splits :=
         if Z.of_nat (length _splits) mod 2 =? 0
         then splits ++ (match last _splits with Some x => [x] | None => [] end)
         else splits in
       Ok (match _splits with
           | [] => splits
           | s0 :: _ => s0 :: splits
           end)
     else Ok (re_split false separator text)) ;;
  Ok (List.filter nonempty splits).

Definition _join_docs (self : TextSplitter) (docs : list string)
    (separator : string) : option string :=
  let text := py_join separator docs in
  let text := if _strip_whitespace self then py_strip text else text in
  if String.eqb text EmptyString then None else Some text.

(** The condition of the [while] loop of [_merge_splits]. *)
Definition keep_popping (self : TextSplitter) (_len separator_len : Z)
    (current_doc : list string) (total : Z) : bool :=
  (_chunk_overlap self <? total)
  || ((_chunk_size self <?
         total + _len + (if 0 <? llen current_doc then separator_len else 0))
      && (0 <? total)).

(** The [while] loop: drop pieces from the front of [current_doc];
    [current_doc[0]] on an empty list is an [IndexError]. *)
Fixpoint pop_front (self : TextSplitter) (_len separator_len : Z)
    (current_doc : list string) (total : Z) : Res (list string * Z) :=
  match current_doc with
  | [] =>
      if keep_popping self _len separator_len [] total
      then Raise IndexError
      else Ok ([], total)
  | d0 :: rest =>
      if keep_popping self _len separator_len current_doc total
      then pop_front self _len separator_len rest
             (total - (len d0 + (if 1 <? llen current_doc then separator_len else 0)))
      else Ok (current_doc, total)
  end.

(** One iteration of the [for d in splits] loop of [_merge_splits], on the
    state [(docs, current_doc, total)]. *)
Definition merge_step (self : TextSplitter) (separator : string)
    (st : list string * list string * Z) (d : string)
    : Res (list string * list string * Z) :=
  let '(docs, current_doc, total) := st in
  let separator_len := len separator in
  let _len := len d in
  st' <-
    (if (_chunk_size self <?
           total + _len + (if 0 <? llen current_doc then separator_len else 0))
        && (0 <? llen current_doc)
     then
       let docs :=
         match _join_docs self current_doc separator with
         | Some doc => docs ++ [doc]
         | None => docs
         end in
       popped <- pop_front self _len separator_len current_doc total ;;
       Ok (docs, fst popped, snd popped)
     else Ok (docs, current_doc, total)) ;;
  let '(docs, current_doc, total) := st' in
  let current_doc := current_doc ++ [d] in
  Ok (docs, current_doc,
      total + _len + (if 1 <? llen current_doc then separator_len else 0)).

Fixpoint merge_loop (self : TextSplitter) (separator : string)
    (splits : list string) (st : list string * list string * Z)
    : Res (list string * list string * Z) :=
  match splits with
  | [] => Ok st
  | d :: rest =>
      st' <- merge_step self separator st d ;;
      merge_loop self separator rest st'
  end.

Definition _merge_splits (self : TextSplitter) (splits : list string)
    (separator : string) : Res (list string) :=
  st <- merge_loop self separator splits ([], [], 0) ;;
  let '(docs, current_doc, _) := st in
  Ok (match _join_docs self current_doc separator with
      | Some doc => docs ++ [doc]
      | None => docs
      end).

(** Flush [_good_splits] into [final_chunks]. *)
Definition flush (self : TextSplitter) (_separator : string)
    (final_chunks _good_splits : list string) : Res (list string) :=
  match _good_splits with
  | [] => Ok final_chunks
  | _ => merged_text <- _merge_splits self _good_splits _separator ;;
         Ok (final_chunks ++ merged_text)
  end.

(** The [for s in splits] loop of [_split_text] on the state
    [(final_chunks, _good_splits)]; [recurse] is [_split_text] on the
    remaining separators, absent when there are none left. *)
Fixpoint split_loop (self : TextSplitter) (_separator : string)
    (recurse : option (string -> Res (list string)))
    (splits : list string) (final_chunks _good_splits : list string)
    : Res (list string) :=
  match splits with
  | [] => flush self _separator final_chunks _good_splits
  | s :: rest =>
      if len s <? _chunk_size self
      then split_loop self _separator recurse rest final_chunks (_good_splits ++ [s])
      else
        final_chunks <- flush self _separator final_chunks _good_splits ;;
        final_chunks <-
          match recurse with
          | None => Ok (final_chunks ++ [s])
          | Some rec => other_info <- rec s ;; Ok (final_chunks ++ other_info)
          end ;;
        split_loop self _separator recurse rest final_chunks []
  end.

(** [_split_text] once the separator is chosen. *)
Definition split_with (self : TextSplitter) (separator : string)
    (recurse : option (string -> Res (list string))) (text : string)
    : Res (list string) :=
  splits <- _split_text_with_regex text separator (_keep_separator self) ;;
  let _separator := if _keep_separator self then EmptyString else separator in
  split_loop self _separator recurse splits [] [].

(** [_split_text]: the first separator that is empty or occurs in the text
    is used and the ones after it are left for the pieces that are still
    too long; when none occurs the last one is used. *)
Fixpoint _split_text (self : TextSplitter) (separators : list string)
    (text : string) {struct separators} : Res (list string) :=
  match separators with
  | [] => Raise IndexError
  | _s :: rest =>
      if String.eqb _s EmptyString then split_with self _s None text
      else if py_contains _s text then
        split_with self _s
          (match rest with
           | [] => None
           | _ => Some (_split_text self rest)
           end) text
      else
        match rest with
        | [] => split_with self _s None text
        | _ => _split_text self rest text
        end
  end.

Definition split_text (self : TextSplitter) (text : string) : Res (list string) :=
  _split_text self (_separators self) text.

End RecursiveCharacterTextSplitter.

(** ** [DocumentProcessor] *)

Definition NL : string := String "010"%char EmptyString.

(** [separators=["\n\n", "\n", ". ", " ", ""]]. *)
Definition separators : list string := [NL +:+ NL; NL; ". "; " "; ""].

(** The tokenizer is used by the directory loader only and is left out. *)
Record DocumentProcessor : Type := mkDocumentProcessor {
  dp_config : RAGConfig;
  text_splitter : TextSplitter
}.

Definition DocumentProcessor_init (config : RAGConfig) : Res DocumentProcessor :=
  splitter <- RecursiveCharacterTextSplitter.__init__
                (chunk_size config) (chunk_overlap config) separators ;;
  Ok {| dp_config := config; text_splitter := splitter |}.

(** [{**doc.metadata, 'chunk_index': i, 'total_chunks': len(chunks)}]: the
    two keys are written after the document's own. *)
Definition chunk_metadata (doc : Document) (i total : Z) : gmap string MetaVal :=
  <["total_chunks" := MInt total]> (<["chunk_index" := MInt i]> (metadata doc)).

(** The inner loop of [chunk_documents]: one chunk per piece, in order. *)
Definition chunks_of (doc : Document) (chunks : list string) : list Document :=
  imap (fun i chunk =>
          {| page_content := chunk;
             metadata := chunk_metadata doc (Z.of_nat i) (llen chunks) |})
       chunks.

Section Chunker.

(** [self.text_splitter.split_text]. *)
Variable split_text : TextSplitter -> string -> Res (list string).

(** The outer loop of [chunk_documents] on the list [chunked_docs]. *)
Fixpoint chunk_loop (self : DocumentProcessor) (documents : list Document)
    (chunked_docs : list Document) : Res (list Document) :=
  match documents with
  | [] => Ok chunked_docs
  | doc :: rest =>
      chunks <- split_text (text_splitter self) (page_content doc) ;;
      chunk_loop self rest (chunked_docs ++ chunks_of doc chunks)
  end.

Definition chunk_documents (self : DocumentProcessor)
    (documents : list Document) : Res (list Document) :=
  chunk_loop self documents [].

End Chunker.

(** ** Conversation memory, vector store and the external services *)

Inductive Message : Type :=
| HumanMessage (content : string)
| AIMessage (content : string).

(** [langchain.memory.ConversationBufferMemory]: a buffer of messages with
    no bound; [save_context] appends the question and the answer. *)
Record ConversationBufferMemory : Type := mkMemory {
  memory_key : string;
  return_messages : bool;
  output_key : string;
  chat_memory : list Message
}.

Definition save_context (m : ConversationBufferMemory) (question answer : string)
    : ConversationBufferMemory :=
  {| memory_key := memory_key m;
     return_messages := return_messages m;
     output_key := output_key m;
     chat_memory := chat_memory m ++ [HumanMessage question; AIMessage answer] |}.

(** The turns of a buffer, oldest first: each question with its answer. *)
Fixpoint turns_of (msgs : list Message) : list (string * string) :=
  match msgs with
  | HumanMessage q :: AIMessage a :: rest => (q, a) :: turns_of rest
  | _ :: rest => turns_of rest
  | [] => []
  end.

(** A Chroma collection seen from the pipeline: the chunks it holds. *)
Record Chroma : Type := mkChroma {
  collection : list Document
}.

(** [Chroma.__len__]: the number of chunks in the collection. *)
Definition Chroma_len (self : Chroma) : Z := llen (collection self).

(** Truth value of [vector_store.vectorstore] in a Python test: [None] is
    false, and so is a store object whose [__len__] is 0. *)
Definition store_truthy (v : option Chroma) : bool :=
  match v with
  | Some vs => negb (Chroma_len vs =? 0)
  | None => false
  end.

(** The calls that leave the process, in the order they are issued. *)
Inductive ExternalCall : Type :=
| CallSearch (vs : Chroma) (query : string) (k : Z)
| CallChain (vs : Chroma) (k : Z) (chat_history : option (list Message))
    (question : string)
| CallChromaOpen (collection_name persist_directory : string)
| CallChromaCreate (documents : list Document)
    (collection_name persist_directory : string).

(** What the outside world answers: a value or an exception. Each answer may
    depend on every call issued before it. [run_chain] is a
    [ConversationalRetrievalChain] call: embedding of the question, retrieval
    of [k] chunks and synthesis, given the history loaded from the memory
    object when there is one. *)
Record External : Type := mkExternal {
  similarity_search_with_score :
    list ExternalCall -> Chroma -> string -> Z -> Res (list (Document * float));
  run_chain :
    list ExternalCall -> Chroma -> Z -> option (list Message) -> string ->
    Res (string * list Document);
  chroma_open : list ExternalCall -> string -> string -> Res Chroma;
  chroma_from_documents :
    list ExternalCall -> list Document -> string -> string -> Res Chroma;
  utcnow : string
}.

Record VectorStore : Type := mkVectorStore {
  vs_config : RAGConfig;
  vectorstore : option Chroma
}.

Record RAGPipeline : Type := mkRAGPipeline {
  config : RAGConfig;
  vector_store : VectorStore;
  conversation_memory : gmap string ConversationBufferMemory
}.

Definition set_vectorstore (self : VectorStore) (v : option Chroma) : VectorStore :=
  {| vs_config := vs_config self; vectorstore := v |}.

Definition set_vector_store (self : RAGPipeline) (v : VectorStore) : RAGPipeline :=
  {| config := config self; vector_store := v;
     conversation_memory := conversation_memory self |}.

Definition set_conversation_memory (self : RAGPipeline)
    (m : gmap string ConversationBufferMemory) : RAGPipeline :=
  {| config := config self; vector_store := vector_store self;
     conversation_memory := m |}.

(** [RAGPipeline.__init__]. *)
Definition RAGPipeline_init (cfg : RAGConfig) : RAGPipeline :=
  {| config := cfg;
     vector_store := {| vs_config := cfg; vectorstore := None |};
     conversation_memory := ∅ |}.

(** Truth value of a Python string: the empty string is false. *)
Definition truthy (s : string) : bool := negb (String.eqb s EmptyString).

Section Pipeline.

Variable E : External.

(** *** [VectorStore] *)

Definition create_vectorstore (self : VectorStore) (log : list ExternalCall)
    (documents : list Document)
    : Res Chroma * VectorStore * list ExternalCall :=
  let name := collection_name (vs_config self) in
  let dir := chroma_persist_directory (vs_config self) in
  let log' := log ++ [CallChromaCreate documents name dir] in
  match chroma_from_documents E log documents name dir with
  | Ok vs => (Ok vs, set_vectorstore self (Some vs), log')
  | Raise e => (Raise e, self, log')
  end.

Definition load_vectorstore (self : VectorStore) (log : list ExternalCall)
    : Res Chroma * VectorStore * list ExternalCall :=
  let name := collection_name (vs_config self) in
  let dir := chroma_persist_directory (vs_config self) in
  let log' := log ++ [CallChromaOpen name dir] in
  match chroma_open E log name dir with
  | Ok vs => (Ok vs, set_vectorstore self (Some vs), log')
  | Raise e => (Raise e, self, log')
  end.

(** [k = k or self.config.top_k_results]: [None] and [0] are both false. *)
Definition k_or_default (self : VectorStore) (k : option Z) : Z :=
  match k with
  | Some k' => if k' =? 0 then top_k_results (vs_config self) else k'
  | None => top_k_results (vs_config self)
  end.

Definition above_threshold (self : VectorStore) (r : Document * float) : bool :=
  PrimFloat.leb (similarity_threshold (vs_config self)) (snd r).

Definition similarity_search (self : VectorStore) (log : list ExternalCall)
    (query : string) (k : option Z)
    : Res (list (Document * float)) * list ExternalCall :=
  let k := k_or_default self k in
  match vectorstore self with
  | None =>
      (Raise (AttributeError "'NoneType' object has no attribute 'similarity_search_with_score'"),
       log)
  | Some vs =>
      let log' := log ++ [CallSearch vs query k] in
      match similarity_search_with_score E log vs query k with
      | Ok results => (Ok (List.filter (above_threshold self) results), log')
      | Raise e => (Raise e, log')
      end
  end.

(** *** [RAGPipeline] *)

Definition load_existing (self : RAGPipeline) (log : list ExternalCall)
    : Res unit * RAGPipeline * list ExternalCall :=
  let '(r, v, log') := load_vectorstore (vector_store self) log in
  (match r with Ok _ => Ok tt | Raise e => Raise e end,
   set_vector_store self v, log').

Definition new_memory : ConversationBufferMemory :=
  {| memory_key := "chat_history"; return_messages := true;
     output_key := "answer"; chat_memory := [] |}.

(** The memory object stays in the dictionary and is shared with the
    caller: the returned result is the dictionary after the call, and the
    object is reached through its key. *)
Definition get_or_create_memory (self : RAGPipeline) (session_id : string)
    : RAGPipeline :=
  match conversation_memory self !! session_id with
  | Some _ => self
  | None =>
      set_conversation_memory self
        (<[session_id := new_memory]> (conversation_memory self))
  end.

Record SourceDict : Type := mkSourceDict {
  sd_content : string;
  sd_source : MetaVal;
  sd_file_name : MetaVal
}.

Record QueryResult : Type := mkQueryResult {
  qr_answer : string;
  qr_sources : list SourceDict;
  qr_confidence : float;
  qr_session_id : option string
}.

Definition format_source (doc : Document) : SourceDict :=
  {| sd_content := String.substring 0 200 (page_content doc) +:+ "...";
     sd_source := default (MStr "Unknown") (metadata doc !! "source");
     sd_file_name := default (MStr "Unknown") (metadata doc !! "file_name") |}.

(** The key of the memory object handed to the chain: [memory] stays
    [None] when [session_id] is [None] or the empty string. *)
Definition memory_of (session_id : option string) : option string :=
  match session_id with
  | Some sid => if truthy sid then Some sid else None
  | None => None
  end.

(** [RAGPipeline.query]. The retriever is taken from the store object, which
    must exist, and the chain is called once. When the chain was given a
    memory object and the call succeeds, the chain saves the turn into that
    object ([save_context]); the object is the one kept in
    [conversation_memory] under the session id. *)
Definition query (self : RAGPipeline) (log : list ExternalCall)
    (question : string) (session_id : option string)
    : Res QueryResult * RAGPipeline * list ExternalCall :=
  let memory := memory_of session_id in
  let self :=
    match memory with
    | Some sid => get_or_create_memory self sid
    | None => self
    end in
  match vectorstore (vector_store self) with
  | None =>
      (Raise (AttributeError "'NoneType' object has no attribute 'as_retriever'"),
       self, log)
  | Some vs =>
      let k := top_k_results (config self) in
      let chat_history :=
        sid ← memory; chat_memory <$> conversation_memory self !! sid in
      let log' := log ++ [CallChain vs k chat_history question] in
      match run_chain E log vs k chat_history question with
      | Raise e => (Raise e, self, log')
      | Ok (answer, source_documents) =>
          let self :=
            match memory with
            | Some sid =>
                set_conversation_memory self
                  (alter (fun m => save_context m question answer) sid
                     (conversation_memory self))
            | None => self
            end in
          (Ok {| qr_answer := answer;
                 qr_sources := map format_source source_documents;
                 qr_confidence := _calculate_confidence source_documents;
                 qr_session_id := session_id |},
           self, log')
      end
  end.

(** [del d[key]]. *)
Definition dict_del {V} (key : string) (d : gmap string V) : Res (gmap string V) :=
  match d !! key with
  | Some _ => Ok (delete key d)
  | None => Raise (KeyError key)
  end.

Definition clear_session (self : RAGPipeline) (session_id : string)
    : Res unit * RAGPipeline :=
  if bool_decide (session_id ∈ dom (conversation_memory self))
  then
    match dict_del session_id (conversation_memory self) with
    | Ok d => (Ok tt, set_conversation_memory self d)
    | Raise e => (Raise e, self)
    end
  else (Ok tt, self).

(** Several queries of one caller, one after the other. *)
Fixpoint query_all (self : RAGPipeline) (log : list ExternalCall)
    (questions : list string) (session_id : option string)
    : RAGPipeline * list ExternalCall :=
  match questions with
  | [] => (self, log)
  | q :: rest =>
      let '(_, self', log') := query self log q session_id in
      query_all self' log' rest session_id
  end.

End Pipeline.

(** ** [api.py] *)

(** [QueryRequest]: [question: str = Field(..., min_length=1,
    max_length=1000)], [session_id: Optional[str] = None],
    [include_sources: bool = True]. *)
Record QueryRequest : Type := mkQueryRequest {
  question : string;
  session_id : option string;
  include_sources : bool
}.

(** Construction of a [QueryRequest] from the fields of a request body whose
    [question] is a string: the length bounds of [Field] are checked and the
    defaults filled in. *)
Definition QueryRequest_new (question : string) (session_id : option string)
    (include_sources : option bool) : Res QueryRequest :=
  if len question <? 1
  then Raise (ValidationError "String should have at least 1 character")
  else if 1000 <? len question
  then Raise (ValidationError "String should have at most 1000 characters")
  else Ok {| question := question;
             session_id := session_id;
             include_sources := default true include_sources |}.

Record Source : Type := mkSource {
  src_content : string;
  src_source : string;
  src_file_name : string
}.

Record QueryResponse : Type := mkQueryResponse {
  answer : string;
  sources : list Source;
  confidence : float;
  resp_session_id : option string;
  timestamp : string
}.

(** What a handler gives back: a body, or an [HTTPException]. *)
Inductive Response (A : Type) : Type :=
| HTTP200 (body : A)
| HTTPException (status_code : Z) (detail : string).
Arguments HTTP200 {A} body.
Arguments HTTPException {A} status_code detail.

Definition status_of {A} (r : Response A) : Z :=
  match r with
  | HTTP200 _ => 200
  | HTTPException status_code _ => status_code
  end.

(** The module state of [api.py]: the global [rag_pipeline], and the calls
    issued to the outside so far. *)
Record App : Type := mkApp {
  rag_pipeline : option RAGPipeline;
  calls : list ExternalCall
}.

(** [str.isprintable] on one character (code points below 256). *)
Definition py_isprintable (c : ascii) : bool :=
  let n := Z.of_N (N_of_ascii c) in
  ((32 <=? n) && (n <? 127)) || ((161 <=? n) && negb (n =? 173)).

(** One lowercase hexadecimal digit. *)
Definition hex_digit (n : Z) : ascii :=
  ascii_of_N (Z.to_N (if n <? 10 then 48 + n else 87 + n)).

(** One character of [repr(s)] between quote characters [quote]: the quote
    and the backslash are escaped, tab, newline and carriage return have
    their letter, and any other character that is not printable is written
    with its two hexadecimal digits. *)
Definition py_repr_char (quote c : ascii) : string :=
  let n := Z.of_N (N_of_ascii c) in
  if Ascii.eqb c quote || Ascii.eqb c "092"%char
  then String "092"%char (String c "")
  else if n =? 9 then String "092"%char "t"
  else if n =? 10 then String "092"%char "n"
  else if n =? 13 then String "092"%char "r"
  else if py_isprintable c then String c ""
  else String "092"%char
         (String "x"%char
            (String (hex_digit (n / 16)) (String (hex_digit (n mod 16)) ""))).

Fixpoint py_repr_body (quote : ascii) (s : string) : string :=
  match s with
  | EmptyString => ""
  | String c rest => py_repr_char quote c +:+ py_repr_body quote rest
  end.

Fixpoint has_char (c : ascii) (s : string) : bool :=
  match s with
  | EmptyString => false
  | String d rest => Ascii.eqb c d || has_char c rest
  end.

(** [repr(s)] of a string: between single quotes, unless the string holds a
    single quote and no double quote. *)
Definition py_repr (s : string) : string :=
  let quote : ascii :=
    if has_char "039"%char s && negb (has_char "034"%char s)
    then "034"%char else "039"%char in
  String quote (py_repr_body quote s +:+ String quote "").

(** A string [repr] leaves as it is between single quotes: printable
    characters, with no single quote and no backslash. *)
Definition py_plain_char (c : ascii) : bool :=
  py_isprintable c && negb (Ascii.eqb c "039"%char)
  && negb (Ascii.eqb c "092"%char).

Fixpoint py_plain (s : string) : bool :=
  match s with
  | EmptyString => true
  | String c rest => py_plain_char c && py_plain rest
  end.

(** [str(e)]; the text of a [KeyError] is the [repr] of its key. *)
Definition exn_str (e : PyExn) : string :=
  match e with
  | ValueError msg => msg
  | IndexError => "list index out of range"
  | KeyError key => py_repr key
  | AttributeError msg => msg
  | ValidationError msg => msg
  | ExternalError msg => msg
  end.

(** [Source] built from a source dictionary: the three fields must be
    strings. *)
Definition Source_new (source : SourceDict) : Res Source :=
  match sd_source source, sd_file_name source with
  | MStr s, MStr f =>
      Ok {| src_content := sd_content source; src_source := s; src_file_name := f |}
  | _, _ => Raise (ValidationError "Input should be a valid string")
  end.

Fixpoint Source_all (l : list SourceDict) : Res (list Source) :=
  match l with
  | [] => Ok []
  | s :: rest => x <- Source_new s ;; xs <- Source_all rest ;; Ok (x :: xs)
  end.

Section Api.

Variable E : External.

(** [startup_event]. [clients] is the construction of the clients
    [RAGPipeline(config)] makes ([ChatOpenAI], [OpenAIEmbeddings],
    [chromadb.Client]): when it raises, the exception is logged and raised
    again, and the global [rag_pipeline] is not assigned. A store that cannot
    be loaded is only logged. *)
Definition startup_event (clients : RAGConfig -> Res unit) (api_key : string)
    (app : App) : Res unit * App :=
  let config := RAGConfig_default api_key in
  match clients config with
  | Raise e => (Raise e, app)
  | Ok _ =>
      let p := RAGPipeline_init config in
      let '(_, p', log') := load_existing E p (calls app) in
      (Ok tt, {| rag_pipeline := Some p'; calls := log' |})
  end.

(** [query_knowledge_base]. The two tests before the [try] are truth-value
    tests: a pipeline object is always true, a store object is true when it
    holds a chunk. *)
Definition query_knowledge_base (request : QueryRequest) (app : App)
    : Response QueryResponse * App :=
  match rag_pipeline app with
  | None => (HTTPException 503 "RAG pipeline not initialized", app)
  | Some p =>
      if negb (store_truthy (vectorstore (vector_store p)))
      then
        (HTTPException 503 "Vector store not ready. Please ingest documents first.",
         app)
      else
        let '(r, p', log') :=
          query E p (calls app) (question request) (session_id request) in
        let app' := {| rag_pipeline := Some p'; calls := log' |} in
        let failed (e : PyExn) : Response QueryResponse :=
          HTTPException 500 ("Query processing failed: " +:+ exn_str e) in
        match r with
        | Raise e => (failed e, app')
        | Ok result =>
            match (if include_sources request
                   then Source_all (qr_sources result)
                   else Ok []) with
            | Raise e => (failed e, app')
            | Ok sources =>
                (HTTP200 {| answer := qr_answer result;
                            sources := sources;
                            confidence := qr_confidence result;
                            resp_session_id := qr_session_id result;
                            timestamp := utcnow E |},
                 app')
            end
        end
  end.

(** [POST /query]: the body is validated into a [QueryRequest] before the
    handler runs; a body that fails validation is answered with 422 and the
    handler is not entered. *)
Definition post_query (question : string) (session_id : option string)
    (include_sources : option bool) (app : App)
    : Response QueryResponse * App :=
  match QueryRequest_new question session_id include_sources with
  | Raise e => (HTTPException 422 (exn_str e), app)
  | Ok request => query_knowledge_base request app
  end.

(** [DELETE /session/{session_id}]. *)
Definition api_clear_session (session_id : string) (app : App)
    : Response string * App :=
  match rag_pipeline app with
  | None => (HTTPException 503 "RAG pipeline not initialized", app)
  | Some p =>
      match clear_session p session_id with
      | (Ok _, p') =>
          (HTTP200 ("Session " +:+ session_id +:+ " cleared"),
           {| rag_pipeline := Some p'; calls := calls app |})
      | (Raise e, p') =>
          (HTTPException 500 (exn_str e),
           {| rag_pipeline := Some p'; calls := calls app |})
      end
  end.

End Api.

(** ** The directory loader and ingestion *)

(** [file.endswith(suffix)]: some tail of the name is the suffix. *)
Fixpoint py_endswith (suffix s : string) : bool :=
  String.eqb s suffix
  || match s with
     | EmptyString => false
     | String _ t => py_endswith suffix t
     end.

(** The file system and the tokenizer, as the loader sees them. [os_walk]
    gives each directory of the tree with the names of its files, in walk
    order (a directory that does not exist gives nothing); reading a file,
    taking a relative path and counting tokens may raise. *)
Record FileSystem : Type := mkFileSystem {
  os_walk : string -> list (string * list string);
  os_path_join : string -> string -> string;
  os_path_relpath : string -> string -> Res string;
  read_text : string -> Res string;
  count_tokens : string -> Res Z;
  encoding_for_model : Res unit
}.

Section Loader.

Variable fs : FileSystem.

(** The body of the [try] block for one file. *)
Definition load_file (directory_path root file : string) : Res Document :=
  let file_path := os_path_join fs root file in
  content <- read_text fs file_path ;;
  relative_path <- os_path_relpath fs file_path directory_path ;;
  tokens <- count_tokens fs content ;;
  Ok {| page_content := content;
        metadata :=
          <["tokens" := MInt tokens]>
            (<["file_name" := MStr file]>
               (<["file_path" := MStr file_path]>
                  (<["source" := MStr relative_path]> ∅))) |}.

(** [for file in files]: a file that is not markdown is passed over, and so
    is one whose loading raises (the exception is printed). *)
Fixpoint load_files (directory_path root : string) (files : list string)
    (documents : list Document) : list Document :=
  match files with
  | [] => documents
  | file :: rest =>
      let documents :=
        if py_endswith ".md" file then
          match load_file directory_path root file with
          | Ok doc => documents ++ [doc]
          | Raise _ => documents
          end
        else documents in
      load_files directory_path root rest documents
  end.

(** [for root, _, files in os.walk(directory_path)]. *)
Fixpoint load_walk (directory_path : string)
    (entries : list (string * list string)) (documents : list Document)
    : list Document :=
  match entries with
  | [] => documents
  | (root, files) :: rest =>
      load_walk directory_path rest
        (load_files directory_path root files documents)
  end.

Definition load_documents_from_directory (directory_path : string)
    : list Document :=
  load_walk directory_path (os_walk fs directory_path) [].

End Loader.

Section Ingestion.

Variable E : External.
Variable fs : FileSystem.
Variable split_text : TextSplitter -> string -> Res (list string).

(** [DocumentProcessor.process_documents]; the progress lines it prints are
    left out. *)
Definition process_documents (self : DocumentProcessor)
    (directory_path : string) : Res (list Document) :=
  let documents := load_documents_from_directory fs directory_path in
  chunk_documents split_text self documents.

(** [RAGPipeline.initialize_from_documents]. The processor is built first:
    its splitter, then its tokenizer. The store is made by
    [create_vectorstore], whose one call to the outside stands for
    [Chroma.from_documents] with the [persist()] that follows it; when
    [persist()] raises the source has already assigned the new store, and
    nothing proved below depends on which store object is in place after a
    creation that failed. *)
Definition initialize_from_documents (self : RAGPipeline)
    (log : list ExternalCall) (docs_directory : string)
    : Res unit * RAGPipeline * list ExternalCall :=
  match DocumentProcessor_init (config self) with
  | Raise e => (Raise e, self, log)
  | Ok processor =>
      match encoding_for_model fs with
      | Raise e => (Raise e, self, log)
      | Ok _ =>
          match process_documents processor docs_directory with
          | Raise e => (Raise e, self, log)
          | Ok documents =>
              let '(r, v, log') :=
                create_vectorstore E (vector_store self) log documents in
              (match r with Ok _ => Ok tt | Raise e => Raise e end,
               set_vector_store self v, log')
          end
      end
  end.

End Ingestion.

(** ** [api.py]: health, sessions, ingestion and statistics *)

Record HealthResponse : Type := mkHealthResponse {
  health_status : string;
  health_version : string;
  vectorstore_ready : bool;
  health_timestamp : string
}.

Record SessionRequest : Type := mkSessionRequest {
  user_id : option string
}.

Record SessionResponse : Type := mkSessionResponse {
  new_session_id : string;
  created_at : string
}.

Record IngestRequest : Type := mkIngestRequest {
  docs_directory : string
}.

Record IngestAccepted : Type := mkIngestAccepted {
  ingest_message : string;
  ingest_docs_directory : string;
  ingest_timestamp : string
}.

Record Stats : Type := mkStats {
  stats_total_chunks : Z;
  active_sessions : Z;
  stats_embedding_model : string;
  stats_llm_model : string;
  stats_timestamp : string
}.

Section ApiMore.

Variable E : External.
Variable fs : FileSystem.
Variable split_text : TextSplitter -> string -> Res (list string).

(** [collection.count()] in the body of [get_stats]: a call of its own to
    the collection, which may raise. *)
Variable collection_count : Chroma -> Res Z.

(** [GET /health]. *)
Definition health_check (app : App) : HealthResponse :=
  {| health_status :=
       match rag_pipeline app with
       | Some _ => "healthy"
       | None => "initializing"
       end;
     health_version := "1.0.0";
     vectorstore_ready :=
       match rag_pipeline app with
       | Some p =>
           match vectorstore (vector_store p) with
           | Some _ => true
           | None => false
           end
       | None => false
       end;
     health_timestamp := utcnow E |}.

(** [request.user_id or 'anonymous']. *)
Definition user_or_anonymous (user_id : option string) : string :=
  match user_id with
  | Some u => if truthy u then u else "anonymous"
  | None => "anonymous"
  end.

(** [POST /session]; [uuid_hex] is [uuid.uuid4().hex]. The handler reads no
    state and writes none. *)
Definition create_session (uuid_hex : string) (request : SessionRequest)
    : SessionResponse :=
  {| new_session_id :=
       user_or_anonymous (user_id request) +:+ "-" +:+ String.substring 0 8 uuid_hex;
     created_at := utcnow E |}.

(** The background task of [POST /ingest]: an exception is logged and goes
    no further. The task reads the global pipeline when it runs. *)
Definition ingest_task (request : IngestRequest) (app : App) : App :=
  match rag_pipeline app with
  | None => app
  | Some p =>
      let '(_, p', log') :=
        initialize_from_documents E fs split_text p (calls app)
          (docs_directory request) in
      {| rag_pipeline := Some p'; calls := log' |}
  end.

(** [POST /ingest]: what the handler answers; when the answer is a 200 the
    task has been scheduled and runs after the response. *)
Definition ingest_documents (request : IngestRequest) (app : App)
    : Response IngestAccepted :=
  match rag_pipeline app with
  | None => HTTPException 503 "RAG pipeline not initialized"
  | Some _ =>
      HTTP200 {| ingest_message := "Document ingestion started";
                 ingest_docs_directory := docs_directory request;
                 ingest_timestamp := utcnow E |}
  end.

(** [GET /stats]. The test before the [try] is the truth-value test of
    [query_knowledge_base]: a store object with no chunk is not ready. *)
Definition get_stats (app : App) : Response Stats :=
  match rag_pipeline app with
  | None => HTTPException 503 "Vector store not ready"
  | Some p =>
      match vectorstore (vector_store p) with
      | None => HTTPException 503 "Vector store not ready"
      | Some vs =>
          if negb (store_truthy (Some vs))
          then HTTPException 503 "Vector store not ready"
          else
            match collection_count vs with
            | Raise e => HTTPException 500 (exn_str e)
            | Ok count =>
                HTTP200 {| stats_total_chunks := count;
                           active_sessions :=
                             Z.of_nat (size (conversation_memory p));
                           stats_embedding_model := embedding_model (config p);
                           stats_llm_model := llm_model (config p);
                           stats_timestamp := utcnow E |}
            end
      end
  end.

End ApiMore.

(** * Properties and sample data

    The predicates the theorems are stated with, and concrete values on
    which the theorems are run. *)

Definition doc_of (content source : string) : Document :=
  {| page_content := content;
     metadata := {[ "source" := MStr source; "file_name" := MStr source ]} |}.

Definition sample_docs : list Document :=
  [doc_of "Write the test first." "tdd.md";
   doc_of "Run the pipeline on every commit." "ci.md";
   doc_of "Deployment frequency and lead time." "dora.md"].

(** A world in which the search returns the three samples with the scores of
    the scenario of section 8, the chain answers from the first [k] chunks of
    the collection, and the persisted collection is empty. *)
Definition sample_world : External :=
  {| similarity_search_with_score := fun _ vs _ _ =>
       Ok (combine (collection vs) [0.9%float; 0.75%float; 0.4%float]);
     run_chain := fun _ vs k _ question =>
       Ok ("Answer to: " +:+ question, take (Z.to_nat k) (collection vs));
     chroma_open := fun _ _ _ => Ok {| collection := [] |};
     chroma_from_documents := fun _ documents _ _ => Ok {| collection := documents |};
     utcnow := "2024-10-15T10:30:00" |}.

Definition sample_pipeline (vs : option Chroma) : RAGPipeline :=
  set_vector_store (RAGPipeline_init (RAGConfig_default "key"))
    {| vs_config := RAGConfig_default "key"; vectorstore := vs |}.

(** The pieces the splitter returns for each document, in order. *)
Definition splits_to (split_text : TextSplitter -> string -> Res (list string))
    (self : DocumentProcessor) (documents : list Document)
    (pieces : list (list string)) : Prop :=
  Forall2 (fun doc ps => split_text (text_splitter self) (page_content doc) = Ok ps)
          documents pieces.

(** Candidates in descending score order: every candidate scores at least
    as much as every candidate after it. *)
Definition descending (results : list (Document * float)) : Prop :=
  StronglySorted (fun a b => PrimFloat.leb (snd b) (snd a) = true) results.

Definition sample_store : VectorStore :=
  {| vs_config := RAGConfig_default "key";
     vectorstore := Some {| collection := sample_docs |} |}.



(** The messages appended by a sequence of turns. *)
Definition messages_of (turns : list (string * string)) : list Message :=
  flat_map (fun t => [HumanMessage (fst t); AIMessage (snd t)]) turns.

(** The history of a session: empty when the session does not exist. *)
Definition history (self : RAGPipeline) (sid : string) : list Message :=
  default [] (chat_memory <$> conversation_memory self !! sid).

Definition six_questions : list string :=
  ["What is test-driven development?"; "How do I set up CI/CD pipeline?";
   "What are DORA metrics?"; "What is a unit test?"; "What is a code review?";
   "What is a release train?"].

(** A configuration with small chunks, and one that differs from it in every
    field the chunker does not read. *)
Definition small_config : RAGConfig :=
  {| openai_api_key := "key";
     embedding_model := "text-embedding-3-small";
     llm_model := "gpt-4-turbo-preview";
     temperature := 0.1%float;
     chroma_persist_directory := "./chroma_db";
     collection_name := "qa_knowledge_base";
     chunk_size := 20;
     chunk_overlap := 5;
     top_k_results := 3;
     similarity_threshold := 0.7%float;
     max_history_length := 5;
     max_tokens := 8000 |}.

Definition other_small_config : RAGConfig :=
  {| openai_api_key := "another key";
     embedding_model := "text-embedding-3-large";
     llm_model := "gpt-4";
     temperature := 0.5%float;
     chroma_persist_directory := "./elsewhere";
     collection_name := "notes";
     chunk_size := 20;
     chunk_overlap := 5;
     top_k_results := 10;
     similarity_threshold := 0.5%float;
     max_history_length := 2;
     max_tokens := 100 |}.

Definition small_splitter : TextSplitter :=
  {| _chunk_size := 20; _chunk_overlap := 5; _separators := separators;
     _keep_separator := true; _strip_whitespace := true |}.

Definition small_processor (cfg : RAGConfig) : DocumentProcessor :=
  {| dp_config := cfg; text_splitter := small_splitter |}.

Definition sample_pieces : list (list string) :=
  [["Write the test"; "test first."];
   ["Run the pipeline on"; "on every commit."];
   ["Deployment frequency"; "and lead time."]].

(** A chunk of an earlier pass, chunked again. *)
Definition rechunked_doc : Document :=
  {| page_content := "Write the test first.";
     metadata := {[ "source" := MStr "tdd.md"; "chunk_index" := MInt 7;
                    "total_chunks" := MInt 9 ]} |}.

(** Concatenation of pieces, and a string without its first [n] characters. *)
Definition sconcat (l : list string) : string := fold_right String.append "" l.

Fixpoint sdrop (n : nat) (s : string) : string :=
  match n, s with
  | O, _ => s
  | S n', String _ t => sdrop n' t
  | S _, EmptyString => EmptyString
  end.

(** What the splitter makes of a text that fits in one chunk. *)
Definition one_chunk (self : TextSplitter) (text : string) : list string :=
  match RecursiveCharacterTextSplitter._join_docs self [text] "" with
  | Some doc => [doc]
  | None => []
  end.

(** The processor of the default configuration. *)
Definition default_processor : DocumentProcessor :=
  {| dp_config := RAGConfig_default "key";
     text_splitter :=
       {| _chunk_size := 1000; _chunk_overlap := 200;
          _separators := separators; _keep_separator := true;
          _strip_whitespace := true |} |}.

Definition empty_doc : Document := doc_of "" "empty.md".

Definition padded_doc : Document := doc_of " Write the test first. " "tdd.md".

(** The value of [total] in [_merge_splits]: the length of [current_doc]
    joined by a separator of length [separator_len]. *)
Fixpoint joined_len (separator_len : Z) (current_doc : list string) : Z :=
  match current_doc with
  | [] => 0
  | d :: rest =>
      len d + (match rest with [] => 0 | _ => separator_len end)
      + joined_len separator_len rest
  end.

(** ** Sample data and notions for the loader, the endpoints and the
    chunk sizes *)

(** The documents one directory of the walk contributes: its markdown files
    that load, in order. *)
Definition loaded_from (fs : FileSystem) (directory_path : string)
    (entry : string * list string) : list Document :=
  flat_map (fun file =>
              if py_endswith ".md" file then
                match load_file fs directory_path (fst entry) file with
                | Ok doc => [doc]
                | Raise _ => []
                end
              else [])
           (snd entry).

(** The keys the loader writes. *)
Definition loader_keys : gset string :=
  {[ "source"; "file_path"; "file_name"; "tokens" ]}.

(** A file system with one directory: a markdown file, a file that is not
    markdown, and a markdown file that cannot be read. *)
Definition sample_fs : FileSystem :=
  {| os_walk := fun _ => [("docs", ["tdd.md"; "notes.txt"; "broken.md"])];
     os_path_join := fun root file => root +:+ "/" +:+ file;
     os_path_relpath := fun path _ => Ok (sdrop 5 path);
     read_text := fun path =>
       if String.eqb path "docs/tdd.md" then Ok "Write the test first."
       else Raise (ExternalError "cannot decode");
     count_tokens := fun content => Ok (len content);
     encoding_for_model := Ok tt |}.

(** The chat history handed to the chain for a session id: none without a
    session, the stored history (empty for a new session) with one. *)
Definition chat_history_of (self : RAGPipeline) (session_id : option string)
    : option (list Message) :=
  match memory_of session_id with
  | Some sid => Some (history self sid)
  | None => None
  end.

(** The pipeline after the bookkeeping a query does before it calls the
    chain. *)
Definition with_session (self : RAGPipeline) (session_id : option string)
    : RAGPipeline :=
  match memory_of session_id with
  | Some sid => get_or_create_memory self sid
  | None => self
  end.

(** A chunk that is not empty and not longer than [chunk_size], and a piece
    that is shorter than [chunk_size]. *)
Definition fits_chunk_size (self : TextSplitter) (c : string) : Prop :=
  c <> "" /\ len c <= _chunk_size self.

Definition below_chunk_size (self : TextSplitter) (s : string) : Prop :=
  len s < _chunk_size self.

(** A pipeline whose store holds the sample documents, and the outcome of a
    first query on it. *)
Definition ready_pipeline : RAGPipeline :=
  sample_pipeline (Some {| collection := sample_docs |}).

Definition first_query : Res QueryResult * RAGPipeline * list ExternalCall :=
  query sample_world ready_pipeline [] "What is test-driven development?"
    (Some "s1").

Definition first_result : QueryResult :=
  match fst (fst first_query) with
  | Ok r => r
  | Raise _ =>
      {| qr_answer := ""; qr_sources := []; qr_confidence := 0%float;
         qr_session_id := None |}
  end.

(** A world in which every chain call fails on a key that is missing. *)
Definition failing_world : External :=
  {| similarity_search_with_score := similarity_search_with_score sample_world;
     run_chain := fun _ _ _ _ _ => Raise (KeyError "answer");
     chroma_open := chroma_open sample_world;
     chroma_from_documents := chroma_from_documents sample_world;
     utcnow := utcnow sample_world |}.

(** [collection.count()] of a store that answers. *)
Definition sample_count (vs : Chroma) : Res Z := Ok (llen (collection vs)).

(** What the sample file system gives once processed with small chunks. *)
Definition sample_processed : list Document :=
  match process_documents sample_fs RecursiveCharacterTextSplitter.split_text
          (small_processor small_config) "docs" with
  | Ok chunks => chunks
  | Raise _ => []
  end.

(** * Theorems *)

(** ** Confidence *)

Lemma confidence_table (source_docs : list Document) :
  _calculate_confidence source_docs = confidence_of_count (length source_docs).
Proof.
  destruct source_docs as [|a [|b [|c l]]]; try reflexivity.
  unfold _calculate_confidence, llen.
  destruct (Z.leb_spec 3 (Z.of_nat (length (a :: b :: c :: l)))) as [_|H].
  - reflexivity.
  - simpl length in H. lia.
Qed.

Lemma confidence_of_count_range (n : nat) :
  in_unit_interval (confidence_of_count n) = true.
Proof. destruct n as [|[|[|n]]]; reflexivity. Qed.

Lemma query_confidence (E : External) self log q sid result self' log' :
  query E self log q sid = (Ok result, self', log') ->
  qr_confidence result = confidence_of_count (length (qr_sources result)).
Proof.
  unfold query.
  destruct (vectorstore (vector_store _)) as [vs|]; [|discriminate].
  destruct (run_chain E log vs _ _ q) as [[ans docs]|e]; [|discriminate].
  intros [= <- _ _]. simpl.
  rewrite length_map. apply confidence_table.
Qed.

(** C1. The confidence of a query is a function of the number of retrieved
    source documents only: no document gives 0.0, one gives 0.5, two give
    0.7, three or more give 0.9. It is strictly increasing over the counts
    0, 1, 2, 3, lies between 0 and 1, and does not depend on what the
    documents contain; the confidence field of a query result is this
    function of the number of sources returned. *)
Theorem confidence_is_a_function_of_source_count :
  (forall source_docs : list Document,
      _calculate_confidence source_docs = confidence_of_count (length source_docs))
  /\ confidence_of_count 0 = 0.0%float
  /\ confidence_of_count 1 = 0.5%float
  /\ confidence_of_count 2 = 0.7%float
  /\ (forall n : nat, (3 <= n)%nat -> confidence_of_count n = 0.9%float)
  /\ PrimFloat.ltb (confidence_of_count 0) (confidence_of_count 1) = true
  /\ PrimFloat.ltb (confidence_of_count 1) (confidence_of_count 2) = true
  /\ PrimFloat.ltb (confidence_of_count 2) (confidence_of_count 3) = true
  /\ (forall source_docs : list Document,
        in_unit_interval (_calculate_confidence source_docs) = true)
  /\ (forall docs1 docs2 : list Document,
        length docs1 = length docs2 ->
        _calculate_confidence docs1 = _calculate_confidence docs2)
  /\ (forall (E : External) self log q sid result self' log',
        query E self log q sid = (Ok result, self', log') ->
        qr_confidence result = confidence_of_count (length (qr_sources result))).
Proof.
  repeat split; try reflexivity.
  - apply confidence_table.
  - intros n Hn. destruct n as [|[|[|n]]]; try lia. reflexivity.
  - intros docs. rewrite confidence_table. apply confidence_of_count_range.
  - intros docs1 docs2 Hlen. rewrite !confidence_table. now rewrite Hlen.
  - intros E. apply query_confidence.
Qed.

(** ** Similarity search *)

Section FilterFacts.

Context {A : Type} (f : A -> bool).

Lemma filter_Forall (P : A -> Prop) (l : list A) :
  Forall P l -> Forall P (List.filter f l).
Proof.
  induction 1 as [|x l Hx Hl IH]; simpl; [constructor|].
  destruct (f x); [constructor|]; assumption.
Qed.

Lemma filter_StronglySorted (R : A -> A -> Prop) (l : list A) :
  StronglySorted R l -> StronglySorted R (List.filter f l).
Proof.
  induction 1 as [|x l Hl IH Hx]; simpl; [constructor|].
  destruct (f x); [|assumption].
  constructor; [assumption|]. now apply filter_Forall.
Qed.

Lemma filter_sublist (l : list A) : sublist (List.filter f l) l.
Proof.
  induction l as [|x l IH]; simpl; [constructor|].
  destruct (f x); now constructor.
Qed.

End FilterFacts.

Lemma similarity_search_ok (E : External) (self : VectorStore) log vs query k results :
  vectorstore self = Some vs ->
  similarity_search_with_score E log vs query (k_or_default self k) = Ok results ->
  similarity_search E self log query k
  = (Ok (List.filter (above_threshold self) results),
     log ++ [CallSearch vs query (k_or_default self k)]).
Proof.
  intros Hvs Hres. unfold similarity_search. now rewrite Hvs, Hres.
Qed.

(** C3. When the underlying nearest-neighbour search returns a candidate
    list in descending score order, [similarity_search] returns exactly the
    candidates whose score is at least [similarity_threshold], in the order
    they came in, which is again descending. With a threshold of 0.7 and
    candidate scores 0.9, 0.75, 0.4 the result is the first two candidates,
    in that order. *)
Theorem similarity_search_keeps_scores_above_threshold
    (E : External) (self : VectorStore) (log : list ExternalCall)
    (vs : Chroma) (query : string) (k : option Z)
    (results : list (Document * float)) :
  vectorstore self = Some vs ->
  similarity_search_with_score E log vs query (k_or_default self k) = Ok results ->
  descending results ->
  exists out,
    fst (similarity_search E self log query k) = Ok out
    /\ out = List.filter (above_threshold self) results
    /\ (forall c, In c out <->
                  In c results
                  /\ PrimFloat.leb (similarity_threshold (vs_config self)) (snd c) = true)
    /\ sublist out results
    /\ descending out
    /\ (forall d1 d2 d3,
          similarity_threshold (vs_config self) = 0.7%float ->
          results = [(d1, 0.9%float); (d2, 0.75%float); (d3, 0.4%float)] ->
          out = [(d1, 0.9%float); (d2, 0.75%float)]).
Proof.
  intros Hvs Hres Hdesc.
  exists (List.filter (above_threshold self) results).
  rewrite (similarity_search_ok _ _ _ _ _ _ _ Hvs Hres). simpl.
  split; [reflexivity|]. split; [reflexivity|]. split; [|split; [|split]].
  - intros c. rewrite filter_In. reflexivity.
  - apply filter_sublist.
  - now apply filter_StronglySorted.
  - intros d1 d2 d3 Hth ->. simpl. unfold above_threshold. rewrite Hth. reflexivity.
Qed.

Lemma similarity_search_scenario :
  exists out,
    fst (similarity_search sample_world sample_store [] "What are DORA metrics?" None)
    = Ok out
    /\ out = List.filter (above_threshold sample_store)
               (combine sample_docs [0.9%float; 0.75%float; 0.4%float])
    /\ (forall c, In c out <->
                  In c (combine sample_docs [0.9%float; 0.75%float; 0.4%float])
                  /\ PrimFloat.leb (similarity_threshold (vs_config sample_store)) (snd c)
                     = true)
    /\ sublist out (combine sample_docs [0.9%float; 0.75%float; 0.4%float])
    /\ descending out
    /\ (forall d1 d2 d3,
          similarity_threshold (vs_config sample_store) = 0.7%float ->
          combine sample_docs [0.9%float; 0.75%float; 0.4%float]
          = [(d1, 0.9%float); (d2, 0.75%float); (d3, 0.4%float)] ->
          out = [(d1, 0.9%float); (d2, 0.75%float)]).
Proof.
  apply (similarity_search_keeps_scores_above_threshold
           sample_world sample_store [] {| collection := sample_docs |}).
  - reflexivity.
  - reflexivity.
  - repeat constructor.
Defined.

(** ** Session store *)

Lemma set_conversation_memory_same (self : RAGPipeline) :
  set_conversation_memory self (conversation_memory self) = self.
Proof. now destruct self. Qed.

Lemma clear_session_delete (self : RAGPipeline) (x : string) :
  clear_session self x
  = (Ok tt, set_conversation_memory self (delete x (conversation_memory self))).
Proof.
  unfold clear_session, dict_del. case_bool_decide as Hin.
  - apply elem_of_dom in Hin as [m Hm]. now rewrite Hm.
  - apply not_elem_of_dom in Hin.
    now rewrite delete_id, set_conversation_memory_same.
Qed.

(** C8. [clear_session] never raises and removes the session: afterwards the
    store has no entry for it, every other session is as before, and so are
    the configuration and the vector store. Clearing a session that does not
    exist changes nothing, and clearing twice leaves the state of clearing
    once. The [DELETE /session] handler answers 200 whenever the pipeline
    exists. *)
Theorem clear_session_is_idempotent (self : RAGPipeline) (x : string) :
  fst (clear_session self x) = Ok tt
  /\ conversation_memory (snd (clear_session self x)) !! x = None
  /\ (forall y, y <> x ->
        conversation_memory (snd (clear_session self x)) !! y
        = conversation_memory self !! y)
  /\ config (snd (clear_session self x)) = config self
  /\ vector_store (snd (clear_session self x)) = vector_store self
  /\ (conversation_memory self !! x = None -> clear_session self x = (Ok tt, self))
  /\ clear_session (snd (clear_session self x)) x = (Ok tt, snd (clear_session self x))
  /\ (forall log, status_of (fst (api_clear_session x
                     {| rag_pipeline := Some self; calls := log |})) = 200).
Proof.
  rewrite clear_session_delete. simpl.
  repeat split.
  - apply lookup_delete_eq.
  - intros y Hy. now apply lookup_delete_ne.
  - intros Hx. now rewrite delete_id, set_conversation_memory_same.
  - rewrite clear_session_delete. simpl. f_equal.
    unfold set_conversation_memory. simpl. f_equal.
    apply delete_id, lookup_delete_eq.
  - intros log. unfold api_clear_session. simpl.
    now rewrite clear_session_delete.
Qed.

(** ** Queries *)

(** What [query] does once the memory key is fixed, case by case. *)
Lemma query_no_memory (E : External) self log q sid :
  memory_of sid = None ->
  query E self log q sid =
  match vectorstore (vector_store self) with
  | None =>
      (Raise (AttributeError "'NoneType' object has no attribute 'as_retriever'"),
       self, log)
  | Some vs =>
      let k := top_k_results (config self) in
      let log' := log ++ [CallChain vs k None q] in
      match run_chain E log vs k None q with
      | Raise e => (Raise e, self, log')
      | Ok (ans, docs) =>
          (Ok {| qr_answer := ans;
                 qr_sources := map format_source docs;
                 qr_confidence := _calculate_confidence docs;
                 qr_session_id := sid |}, self, log')
      end
  end.
Proof.
  intros Hm. unfold query. rewrite Hm. simpl.
  destruct (vectorstore (vector_store self)); [|reflexivity].
  destruct (run_chain E log _ _ None q) as [[ans docs]|e]; reflexivity.
Qed.

Lemma query_no_memory_frame (E : External) self log q sid :
  memory_of sid = None ->
  snd (fst (query E self log q sid)) = self
  /\ (snd (query E self log q sid) = log
      \/ exists vs k, snd (query E self log q sid) = log ++ [CallChain vs k None q]).
Proof.
  intros Hm. rewrite (query_no_memory _ _ _ _ _ Hm).
  destruct (vectorstore (vector_store self)) as [vs|]; simpl.
  - destruct (run_chain E log vs _ None q) as [[ans docs]|e]; simpl;
      (split; [reflexivity | right; eauto]).
  - split; [reflexivity | now left].
Qed.

(** C10. A query with no session id leaves the pipeline, and with it the
    whole session store, as it was: no session is created and none is
    modified, whether the query succeeds or fails. The only call it can
    issue to the outside is one chain call that carries no chat history, so
    no stored history is read into the synthesis request. The same holds
    for the empty session id, which Python treats as absent, and for the
    [POST /query] handler. *)
Theorem query_without_session_leaves_store_unchanged
    (E : External) (self : RAGPipeline) (log : list ExternalCall) (q : string) :
  snd (fst (query E self log q None)) = self
  /\ conversation_memory (snd (fst (query E self log q None)))
     = conversation_memory self
  /\ (snd (query E self log q None) = log
      \/ exists vs k, snd (query E self log q None) = log ++ [CallChain vs k None q])
  /\ snd (fst (query E self log q (Some ""))) = self
  /\ (forall inc,
        rag_pipeline (snd (post_query E q None inc
                             {| rag_pipeline := Some self; calls := log |}))
        = Some self).
Proof.
  destruct (query_no_memory_frame E self log q None eq_refl) as [Hself Hlog].
  destruct (query_no_memory_frame E self log q (Some "") eq_refl) as [Hself' _].
  repeat split; try assumption.
  - now rewrite Hself.
  - intros inc. unfold post_query.
    destruct (QueryRequest_new q None inc) as [req|e] eqn:Hreq; [|reflexivity].
    assert (session_id req = None) as Hsid.
    { unfold QueryRequest_new in Hreq.
      repeat destruct (_ <? _) in Hreq; try discriminate.
      now injection Hreq as <-. }
    unfold query_knowledge_base. simpl.
    destruct (store_truthy (vectorstore (vector_store self))); [|reflexivity].
    simpl. rewrite Hsid.
    assert (question req = q) as ->.
    { unfold QueryRequest_new in Hreq.
      repeat destruct (_ <? _) in Hreq; try discriminate.
      now injection Hreq as <-. }
    destruct (query E self log q None) as [[r p'] log'] eqn:Hq.
    simpl in Hself. subst p'.
    destruct r as [result|e]; [|reflexivity].
    destruct (if include_sources req then _ else _); reflexivity.
Qed.

(** ** Request validation *)

Lemma len_zero (s : string) : len s = 0 <-> s = "".
Proof.
  unfold len. destruct s; simpl; split; intros H;
    try reflexivity; try discriminate; lia.
Qed.

Lemma len_nonneg (s : string) : 0 <= len s.
Proof. unfold len. lia. Qed.

(** C9. A query whose question is the empty string or longer than 1000
    characters is rejected with a validation error: the answer is a 422, the
    handler is not entered, and the state, with the record of the calls
    issued to the outside, is unchanged, so no embedding, retrieval or
    synthesis call is made. A non-empty question of at most 1000 characters
    passes the validation and reaches the handler. *)
Theorem question_length_is_validated_before_any_call
    (E : External) (q : string) (sid : option string) (inc : option bool)
    (app : App) :
  ((q = "" \/ 1000 < len q) ->
   exists detail,
     QueryRequest_new q sid inc = Raise (ValidationError detail)
     /\ post_query E q sid inc app = (HTTPException 422 detail, app)
     /\ calls (snd (post_query E q sid inc app)) = calls app)
  /\ ((q <> "" /\ len q <= 1000) ->
      QueryRequest_new q sid inc
      = Ok {| question := q; session_id := sid;
              include_sources := default true inc |}
      /\ post_query E q sid inc app
         = query_knowledge_base E
             {| question := q; session_id := sid;
                include_sources := default true inc |} app).
Proof.
  unfold post_query, QueryRequest_new. split.
  - intros [-> | Hlong].
    + simpl. eexists. repeat split.
    + destruct (Z.ltb_spec (len q) 1) as [H1|H1].
      * eexists. repeat split.
      * destruct (Z.ltb_spec 1000 (len q)) as [H2|H2]; [|lia].
        eexists. repeat split.
  - intros [Hne Hlen].
    assert (len q <> 0) as Hz by (now rewrite len_zero).
    pose proof (len_nonneg q).
    destruct (Z.ltb_spec (len q) 1) as [H1|H1]; [lia|].
    destruct (Z.ltb_spec 1000 (len q)) as [H2|H2]; [lia|].
    split; reflexivity.
Qed.

(** ** Readiness of the vector store *)

(** A store object is true in a Python test exactly when it holds a
    chunk. *)
Lemma store_truthy_spec (v : option Chroma) :
  store_truthy v = true <-> exists vs, v = Some vs /\ collection vs <> [].
Proof.
  unfold store_truthy, Chroma_len, llen. destruct v as [[c]|]; simpl.
  - destruct c as [|d c]; simpl; split.
    + discriminate.
    + intros (vs & [= <-] & H). now contradiction H.
    + intros _. eexists. split; [reflexivity | discriminate].
    + reflexivity.
  - split; [discriminate | intros (vs & H & _); discriminate].
Qed.

Lemma store_truthy_Some (vs : Chroma) :
  collection vs <> [] -> store_truthy (Some vs) = true.
Proof. intros H. apply store_truthy_spec. eauto. Qed.

(** With a store that holds chunks the handler runs the query: the chain is
    called on that store, and the answer is a 200 or a 500, never the 503 of
    a store that is not ready. *)
Lemma query_knowledge_base_with_store (E : External) request p vs log :
  vectorstore (vector_store p) = Some vs ->
  collection vs <> [] ->
  let out := query_knowledge_base E request {| rag_pipeline := Some p; calls := log |} in
  status_of (fst out) <> 503
  /\ exists chat_history,
       calls (snd out)
       = log ++ [CallChain vs (top_k_results (config p)) chat_history (question request)].
Proof.
  intros Hvs Hne out. subst out. unfold query_knowledge_base. simpl.
  rewrite Hvs, (store_truthy_Some vs Hne). simpl.
  unfold query.
  set (mem := memory_of (session_id request)).
  set (p1 := match mem with Some sid => get_or_create_memory p sid | None => p end).
  assert (vector_store p1 = vector_store p /\ config p1 = config p) as [Hv Hc].
  { subst p1. destruct mem as [sid|]; [|now split].
    unfold get_or_create_memory. destruct (_ !! sid); now split. }
  rewrite Hv, Hvs, Hc.
  destruct (run_chain E log vs _ _ _) as [[ans docs]|e]; simpl.
  - destruct (if include_sources request then _ else _); simpl;
      (split; [lia | eauto]).
  - split; [lia | eauto].
Qed.




(** ** Session history *)

Lemma turns_of_messages (turns : list (string * string)) :
  turns_of (messages_of turns) = turns.
Proof.
  induction turns as [|[q a] turns IH]; simpl; [reflexivity|]. now rewrite IH.
Qed.

(** One successful query with a session id appends its turn at the end of
    the session's buffer and removes nothing. *)
Lemma query_appends_turn (E : External) self log q sid vs :
  truthy sid = true ->
  vectorstore (vector_store self) = Some vs ->
  is_ok (run_chain E log vs (top_k_results (config self))
           (Some (history self sid)) q) = true ->
  exists a self' log',
    query E self log q (Some sid) = (Ok a, self', log')
    /\ history self' sid
       = history self sid ++ [HumanMessage q; AIMessage (qr_answer a)]
    /\ vector_store self' = vector_store self
    /\ config self' = config self.
Proof.
  intros Ht Hvs Hok. unfold query, memory_of. rewrite Ht.
  set (p1 := get_or_create_memory self sid).
  assert (vector_store p1 = vector_store self /\ config p1 = config self
          /\ exists m, conversation_memory p1 !! sid = Some m
                       /\ chat_memory m = history self sid) as (Hv & Hc & m & Hm & Hh).
  { subst p1. unfold get_or_create_memory, history.
    destruct (conversation_memory self !! sid) as [m|] eqn:Hl; simpl.
    - repeat split. exists m. now rewrite Hl.
    - repeat split. exists new_memory. now rewrite lookup_insert_eq. }
  rewrite Hv, Hvs, Hc. simpl. rewrite Hm. simpl. rewrite Hh.
  destruct (run_chain E log vs _ _ q) as [[ans docs]|e]; [|discriminate].
  do 3 eexists. split; [reflexivity|]. simpl. repeat split; try assumption.
  unfold history. simpl. rewrite lookup_alter_eq, Hm. simpl. now rewrite Hh.
Qed.

(** No number of queries ever evicts a turn: when every chain call succeeds,
    the buffer after the queries is the buffer before them followed by one
    turn per question, in call order. [max_history_length] is not read. *)
Lemma query_all_keeps_every_turn (E : External) (qs : list string) :
  forall self log sid vs,
    truthy sid = true ->
    vectorstore (vector_store self) = Some vs ->
    (forall log' h q,
        is_ok (run_chain E log' vs (top_k_results (config self)) h q) = true) ->
    exists turns,
      map fst turns = qs
      /\ history (fst (query_all E self log qs (Some sid))) sid
         = history self sid ++ messages_of turns.
Proof.
  induction qs as [|q qs IH]; intros self log sid vs Ht Hvs Hok.
  - exists []. simpl. now rewrite app_nil_r.
  - destruct (query_appends_turn E self log q sid vs Ht Hvs (Hok _ _ _))
      as (a & self' & log' & Hq & Hh & Hv & Hc).
    simpl. rewrite Hq.
    destruct (IH self' log' sid vs Ht) as (turns & Hturns & Hall).
    + now rewrite Hv.
    + intros. rewrite Hc. apply Hok.
    + exists ((q, qr_answer a) :: turns). simpl. split; [now rewrite Hturns|].
      rewrite Hall, Hh, <- app_assoc. reflexivity.
Qed.

(** C2, at the failing input. With the default configuration
    ([max_history_length = 5]) six queries on one session leave six turns in
    its history: the first turn is still there and nothing was evicted. *)
Theorem history_grows_past_max_history_length :
  let p := fst (query_all sample_world
                  (sample_pipeline (Some {| collection := sample_docs |}))
                  [] six_questions (Some "demo-session-1")) in
  max_history_length (config p) = 5
  /\ map fst (turns_of (history p "demo-session-1")) = six_questions
  /\ length (turns_of (history p "demo-session-1")) = 6%nat.
Proof. vm_compute. repeat split. Qed.

(** ** Chunking *)

Section ChunkerFacts.

Variable split_text : TextSplitter -> string -> Res (list string).

Lemma chunk_loop_ok self documents pieces :
  splits_to split_text self documents pieces ->
  forall acc,
    chunk_loop split_text self documents acc
    = Ok (acc ++ concat (zip_with chunks_of documents pieces)).
Proof.
  induction 1 as [|doc ps documents pieces Hps _ IH]; intros acc; simpl.
  - now rewrite app_nil_r.
  - rewrite Hps. simpl. rewrite IH, <- app_assoc. reflexivity.
Qed.

Lemma chunk_loop_inv self documents :
  forall acc out,
    chunk_loop split_text self documents acc = Ok out ->
    exists pieces, splits_to split_text self documents pieces.
Proof.
  induction documents as [|doc documents IH]; intros acc out; simpl.
  - intros _. exists []. constructor.
  - destruct (split_text _ _) as [ps|e] eqn:Hps; simpl; [|discriminate].
    intros Hout. destruct (IH _ _ Hout) as [pieces Hpieces].
    exists (ps :: pieces). now constructor.
Qed.

(** The result depends on the processor through its splitter only. *)
Lemma chunk_loop_splitter self1 self2 documents :
  text_splitter self1 = text_splitter self2 ->
  forall acc,
    chunk_loop split_text self1 documents acc
    = chunk_loop split_text self2 documents acc.
Proof.
  intros Hts. induction documents as [|doc documents IH]; intros acc; simpl.
  - reflexivity.
  - rewrite Hts. destruct (split_text _ _); simpl; [apply IH | reflexivity].
Qed.

End ChunkerFacts.

Lemma chunks_of_length (doc : Document) (ps : list string) :
  length (chunks_of doc ps) = length ps.
Proof. unfold chunks_of. apply length_imap. Qed.

Lemma chunks_of_lookup (doc : Document) (ps : list string) (i : nat) (chunk : Document) :
  chunks_of doc ps !! i = Some chunk ->
  ps !! i = Some (page_content chunk)
  /\ metadata chunk = chunk_metadata doc (Z.of_nat i) (llen ps).
Proof.
  unfold chunks_of. rewrite list_lookup_imap.
  destruct (ps !! i) as [c|]; simpl; [|discriminate].
  intros [= <-]. now split.
Qed.

Lemma chunk_metadata_lookup (doc : Document) (i total : Z) :
  chunk_metadata doc i total !! "chunk_index" = Some (MInt i)
  /\ chunk_metadata doc i total !! "total_chunks" = Some (MInt total)
  /\ (forall key, key <> "chunk_index" -> key <> "total_chunks" ->
        chunk_metadata doc i total !! key = metadata doc !! key).
Proof.
  unfold chunk_metadata. repeat split.
  - rewrite lookup_insert_ne by discriminate. apply lookup_insert_eq.
  - apply lookup_insert_eq.
  - intros key H1 H2. now rewrite !lookup_insert_ne by congruence.
Qed.

Lemma DocumentProcessor_init_splitter (cfg : RAGConfig) (p : DocumentProcessor) :
  DocumentProcessor_init cfg = Ok p ->
  dp_config p = cfg
  /\ text_splitter p
     = {| _chunk_size := chunk_size cfg; _chunk_overlap := chunk_overlap cfg;
          _separators := separators; _keep_separator := true;
          _strip_whitespace := true |}.
Proof.
  unfold DocumentProcessor_init, RecursiveCharacterTextSplitter.__init__.
  destruct (chunk_size cfg <? chunk_overlap cfg); simpl; [discriminate|].
  intros [= <-]. now split.
Qed.

(** C5. For a fixed [chunk_size] and [chunk_overlap], chunking the same
    documents twice gives the same outcome: two processors built from
    configurations that agree on these two fields, whatever their other
    fields, return equal results, so the two chunk sequences have the same
    length and, position by position, the same content and metadata. This
    holds for every splitter that is a function of its settings and the
    text. *)
Theorem chunking_is_deterministic
    (split_text : TextSplitter -> string -> Res (list string))
    (cfg1 cfg2 : RAGConfig) (p1 p2 : DocumentProcessor)
    (documents : list Document) :
  DocumentProcessor_init cfg1 = Ok p1 ->
  DocumentProcessor_init cfg2 = Ok p2 ->
  chunk_size cfg1 = chunk_size cfg2 ->
  chunk_overlap cfg1 = chunk_overlap cfg2 ->
  chunk_documents split_text p1 documents = chunk_documents split_text p2 documents
  /\ (forall out1 out2,
        chunk_documents split_text p1 documents = Ok out1 ->
        chunk_documents split_text p2 documents = Ok out2 ->
        length out1 = length out2
        /\ forall i c1 c2,
             out1 !! i = Some c1 -> out2 !! i = Some c2 ->
             page_content c1 = page_content c2 /\ metadata c1 = metadata c2).
Proof.
  intros H1 H2 Hsize Hoverlap.
  apply DocumentProcessor_init_splitter in H1 as [_ Hts1].
  apply DocumentProcessor_init_splitter in H2 as [_ Hts2].
  assert (chunk_documents split_text p1 documents
          = chunk_documents split_text p2 documents) as Heq.
  { apply chunk_loop_splitter. rewrite Hts1, Hts2, Hsize, Hoverlap. reflexivity. }
  split; [exact Heq|].
  intros out1 out2 Hout1 Hout2. rewrite Heq, Hout2 in Hout1.
  injection Hout1 as <-. split; [reflexivity|].
  intros i c1 c2 Hc1 Hc2. rewrite Hc1 in Hc2. injection Hc2 as <-. now split.
Qed.

(** C7, as the code has it. The chunks of each document are contiguous in
    the output, in the order of the input documents. Within the chunks of
    one document, [chunk_index] is the position of the chunk, [total_chunks]
    is the number of chunks of that document on every one of them, and the
    content is the piece the splitter returned at that position. Every
    metadata field of the document other than [chunk_index] and
    [total_chunks] is carried unchanged; these two keys are written by the
    chunker, so a document that has neither keeps all of its fields. *)
Theorem chunks_follow_document_order_and_position
    (split_text : TextSplitter -> string -> Res (list string))
    (self : DocumentProcessor) (documents : list Document)
    (pieces : list (list string)) :
  splits_to split_text self documents pieces ->
  chunk_documents split_text self documents
  = Ok (concat (zip_with chunks_of documents pieces))
  /\ (forall doc ps,
        length (chunks_of doc ps) = length ps
        /\ forall i chunk,
             chunks_of doc ps !! i = Some chunk ->
             ps !! i = Some (page_content chunk)
             /\ metadata chunk !! "chunk_index" = Some (MInt (Z.of_nat i))
             /\ metadata chunk !! "total_chunks" = Some (MInt (Z.of_nat (length ps)))
             /\ (forall key, key <> "chunk_index" -> key <> "total_chunks" ->
                   metadata chunk !! key = metadata doc !! key)
             /\ (metadata doc !! "chunk_index" = None ->
                 metadata doc !! "total_chunks" = None ->
                 forall key v, metadata doc !! key = Some v ->
                               metadata chunk !! key = Some v)).
Proof.
  intros Hpieces. split.
  - unfold chunk_documents. now rewrite (chunk_loop_ok _ _ _ _ Hpieces).
  - intros doc ps. split; [apply chunks_of_length|].
    intros i chunk Hchunk.
    apply chunks_of_lookup in Hchunk as [Hc ->].
    destruct (chunk_metadata_lookup doc (Z.of_nat i) (llen ps)) as (Hi & Ht & Hk).
    repeat split; try assumption.
    intros Hn1 Hn2 key v Hv. rewrite Hk; [assumption| |]; congruence.
Qed.

Lemma chunking_twice_sample :
  chunk_documents RecursiveCharacterTextSplitter.split_text
    (small_processor small_config) sample_docs
  = chunk_documents RecursiveCharacterTextSplitter.split_text
      (small_processor other_small_config) sample_docs
  /\ (forall out1 out2,
        chunk_documents RecursiveCharacterTextSplitter.split_text
          (small_processor small_config) sample_docs = Ok out1 ->
        chunk_documents RecursiveCharacterTextSplitter.split_text
          (small_processor other_small_config) sample_docs = Ok out2 ->
        length out1 = length out2
        /\ forall i c1 c2,
             out1 !! i = Some c1 -> out2 !! i = Some c2 ->
             page_content c1 = page_content c2 /\ metadata c1 = metadata c2).
Proof.
  apply (chunking_is_deterministic RecursiveCharacterTextSplitter.split_text
           small_config other_small_config); reflexivity.
Defined.

Lemma chunks_of_sample_docs :
  chunk_documents RecursiveCharacterTextSplitter.split_text
    (small_processor small_config) sample_docs
  = Ok (concat (zip_with chunks_of sample_docs sample_pieces))
  /\ (forall doc ps,
        length (chunks_of doc ps) = length ps
        /\ forall i chunk,
             chunks_of doc ps !! i = Some chunk ->
             ps !! i = Some (page_content chunk)
             /\ metadata chunk !! "chunk_index" = Some (MInt (Z.of_nat i))
             /\ metadata chunk !! "total_chunks" = Some (MInt (Z.of_nat (length ps)))
             /\ (forall key, key <> "chunk_index" -> key <> "total_chunks" ->
                   metadata chunk !! key = metadata doc !! key)
             /\ (metadata doc !! "chunk_index" = None ->
                 metadata doc !! "total_chunks" = None ->
                 forall key v, metadata doc !! key = Some v ->
                               metadata chunk !! key = Some v)).
Proof.
  apply (chunks_follow_document_order_and_position
           RecursiveCharacterTextSplitter.split_text).
  repeat constructor.
Defined.

Lemma rechunked_document_loses_its_chunk_index :
  (exists p chunk,
      DocumentProcessor_init (RAGConfig_default "key") = Ok p
      /\ chunk_documents RecursiveCharacterTextSplitter.split_text p [rechunked_doc]
         = Ok [chunk]
      /\ metadata rechunked_doc !! "chunk_index" = Some (MInt 7)
      /\ metadata chunk !! "chunk_index" = Some (MInt 0)
      /\ metadata rechunked_doc !! "total_chunks" = Some (MInt 9)
      /\ metadata chunk !! "total_chunks" = Some (MInt 1))
  /\ (forall (split_text : TextSplitter -> string -> Res (list string))
             (self : DocumentProcessor) (pieces : list string),
        split_text (text_splitter self) (page_content rechunked_doc) = Ok pieces ->
        chunk_documents split_text self [rechunked_doc]
        = Ok (chunks_of rechunked_doc pieces)
        /\ forall (i : nat) chunk,
             chunks_of rechunked_doc pieces !! i = Some chunk ->
             i <> 7%nat ->
             metadata chunk !! "chunk_index"
             <> metadata rechunked_doc !! "chunk_index").
Proof.
  split.
  - do 2 eexists. split; [reflexivity|].
    split; [vm_compute; reflexivity|].
    repeat split.
  - intros split_text self pieces Hpieces. split.
    + unfold chunk_documents. cbn [chunk_loop]. now rewrite Hpieces.
    + intros i chunk Hchunk Hi.
      apply chunks_of_lookup in Hchunk as [_ ->].
      destruct (chunk_metadata_lookup rechunked_doc (Z.of_nat i) (llen pieces))
        as [-> _].
      change (metadata rechunked_doc !! "chunk_index") with (Some (MInt 7)).
      intros [= H]. lia.
Qed.

(** ** Short documents *)

Lemma sapp_cons (c : ascii) (s t : string) :
  String c s +:+ t = String c (s +:+ t).
Proof. reflexivity. Qed.

Lemma sapp_nil_l (s : string) : "" +:+ s = s.
Proof. reflexivity. Qed.

Lemma sapp_nil_r (s : string) : s +:+ "" = s.
Proof.
  induction s as [|c s IH]; [reflexivity|]. now rewrite sapp_cons, IH.
Qed.

Lemma sapp_assoc (s t u : string) : (s +:+ t) +:+ u = s +:+ (t +:+ u).
Proof.
  induction s as [|c s IH]; [reflexivity|]. now rewrite !sapp_cons, IH.
Qed.

Lemma len_app (s t : string) : len (s +:+ t) = len s + len t.
Proof.
  unfold len. induction s as [|c s IH]; [rewrite sapp_nil_l; simpl; lia|].
  rewrite sapp_cons. simpl String.length. rewrite !Nat2Z.inj_succ. lia.
Qed.

Lemma py_join_empty (l : list string) : py_join "" l = sconcat l.
Proof.
  unfold py_join. induction l as [|x [|y l] IH]; simpl in *.
  - reflexivity.
  - now rewrite sapp_nil_r.
  - now rewrite sapp_nil_l, IH.
Qed.

Lemma sconcat_app (l1 l2 : list string) :
  sconcat (l1 ++ l2) = sconcat l1 +:+ sconcat l2.
Proof.
  induction l1 as [|x l1 IH]; simpl; [reflexivity|].
  now rewrite IH, sapp_assoc.
Qed.

Lemma sconcat_filter_nonempty (l : list string) :
  sconcat (List.filter RecursiveCharacterTextSplitter.nonempty l) = sconcat l.
Proof.
  induction l as [|x l IH]; simpl; [reflexivity|].
  unfold RecursiveCharacterTextSplitter.nonempty at 1.
  destruct (String.eqb_spec x "") as [->|Hx]; simpl; now rewrite IH.
Qed.

Lemma len_sconcat_le (l : list string) (s : string) :
  In s l -> len s <= len (sconcat l).
Proof.
  induction l as [|x l IH]; simpl; [tauto|].
  rewrite len_app. intros [->|Hin].
  - pose proof (len_nonneg (sconcat l)). lia.
  - specialize (IH Hin). pose proof (len_nonneg x). lia.
Qed.

Lemma py_chars_sconcat (text : string) : sconcat (py_chars text) = text.
Proof. induction text as [|c t IH]; simpl; [reflexivity | now rewrite IH]. Qed.

Lemma prefix_sdrop (sep text : string) :
  String.prefix sep text = true -> text = sep +:+ sdrop (String.length sep) text.
Proof.
  revert text. induction sep as [|c sep IH]; intros text.
  - reflexivity.
  - destruct text as [|c' text]; simpl; [discriminate|].
    destruct (ascii_dec c c') as [->|]; [|discriminate].
    intros H. now rewrite sapp_cons, <- (IH _ H).
Qed.

(** The shape and the content of a split with kept separators: a first
    piece, then separators and pieces in pairs, which put together give the
    text back. *)
Lemma re_split_go_capture (sep text : string) :
  sep <> "" ->
  forall skip cur,
    exists x rest pairs,
      re_split_go true sep skip cur text = x :: rest
      /\ RecursiveCharacterTextSplitter.pair_up rest = Ok pairs
      /\ Nat.Even (length rest)
      /\ x +:+ sconcat pairs = cur +:+ sdrop skip text.
Proof.
  intros Hsep. induction text as [|c t IH]; intros skip cur.
  - exists cur, [], []. simpl.
    split; [reflexivity|]. split; [reflexivity|].
    split; [exists 0%nat; reflexivity|]. now destruct skip.
  - destruct skip as [|n]; [|apply IH].
    change (re_split_go true sep 0 cur (String c t))
      with (if String.prefix sep (String c t)
            then cur :: [sep] ++ re_split_go true sep (String.length sep - 1) "" t
            else re_split_go true sep 0 (cur +:+ String c "") t).
    destruct (String.prefix sep (String c t)) eqn:Hp.
    + destruct (IH (String.length sep - 1)%nat "")
        as (x & rest & pairs & Hgo & Hpairs & Hev & Hcat).
      exists cur, (sep :: x :: rest), ((sep +:+ x) :: pairs).
      rewrite Hgo. simpl. rewrite Hpairs. simpl.
      split; [reflexivity|]. split; [reflexivity|]. split.
      * destruct Hev as [m Hm]. exists (S m). lia.
      * rewrite sapp_assoc, Hcat, sapp_nil_l.
        pose proof (prefix_sdrop _ _ Hp) as Hd.
        destruct sep as [|c0 sep]; [congruence|].
        simpl in Hd |- *. rewrite Nat.sub_0_r.
        rewrite sapp_cons in Hd |- *. congruence.
    + destruct (IH O (cur +:+ String c ""))
        as (x & rest & pairs & Hgo & Hpairs & Hev & Hcat).
      exists x, rest, pairs.
      split; [assumption|]. split; [assumption|]. split; [assumption|].
      rewrite Hcat, sapp_assoc. reflexivity.
Qed.

Section SplitterFacts.

Import RecursiveCharacterTextSplitter.

Lemma split_text_with_regex_keep (text sep : string) :
  exists splits,
    _split_text_with_regex text sep true = Ok splits
    /\ sconcat splits = text.
Proof.
  unfold _split_text_with_regex.
  destruct (String.eqb_spec sep "") as [->|Hsep].
  - exists (List.filter nonempty (py_chars text)). split; [reflexivity|].
    now rewrite sconcat_filter_nonempty, py_chars_sconcat.
  - destruct (re_split_go_capture sep text Hsep O "")
      as (x & rest & pairs & Hgo & Hpairs & [m Hm] & Hcat).
    assert ((Z.of_nat (length (x :: rest)) mod 2 =? 0) = false) as Hodd.
    { apply Z.eqb_neq. simpl length. rewrite Hm.
      replace (Z.of_nat (S (2 * m))) with (1 + Z.of_nat m * 2) by lia.
      rewrite Z.mod_add by lia. discriminate. }
    unfold re_split. rewrite Hgo. cbn [tl]. rewrite Hpairs. cbn [res_bind].
    rewrite Hodd. cbn [res_bind].
    exists (List.filter nonempty (x :: pairs)). split; [reflexivity|].
    rewrite sconcat_filter_nonempty. simpl. now rewrite Hcat.
Qed.

Lemma merge_step_fits (self : TextSplitter) docs cur total (d : string) :
  total + len d <= _chunk_size self ->
  merge_step self "" (docs, cur, total) d = Ok (docs, cur ++ [d], total + len d).
Proof.
  intros Hfit. unfold merge_step.
  change (len "") with 0.
  replace (if 0 <? llen cur then 0 else 0) with 0 by (now destruct (0 <? llen cur)).
  replace (_chunk_size self <? total + len d + 0) with false
    by (symmetry; apply Z.ltb_ge; lia).
  simpl.
  replace (if 1 <? llen (cur ++ [d]) then 0 else 0) with 0
    by (now destruct (1 <? llen (cur ++ [d]))).
  now rewrite Z.add_0_r.
Qed.

Lemma merge_loop_fits (self : TextSplitter) (splits : list string) :
  forall docs cur total,
    total + len (sconcat splits) <= _chunk_size self ->
    merge_loop self "" splits (docs, cur, total)
    = Ok (docs, cur ++ splits, total + len (sconcat splits)).
Proof.
  induction splits as [|d splits IH]; intros docs cur total Hfit;
    cbn [merge_loop].
  - rewrite app_nil_r. change (len (sconcat [])) with 0. now rewrite Z.add_0_r.
  - change (sconcat (d :: splits)) with (d +:+ sconcat splits) in *.
    rewrite len_app in *.
    pose proof (len_nonneg (sconcat splits)).
    rewrite merge_step_fits by lia. cbn [res_bind].
    rewrite IH by lia. rewrite <- app_assoc. cbn [app].
    now rewrite Z.add_assoc.
Qed.

Lemma join_docs_sconcat (self : TextSplitter) (splits : list string) :
  _join_docs self splits "" = _join_docs self [sconcat splits] "".
Proof.
  unfold _join_docs. rewrite !py_join_empty. simpl. now rewrite sapp_nil_r.
Qed.

Lemma merge_splits_fits (self : TextSplitter) (splits : list string) :
  len (sconcat splits) <= _chunk_size self ->
  _merge_splits self splits "" = Ok (one_chunk self (sconcat splits)).
Proof.
  intros Hfit. unfold _merge_splits.
  rewrite merge_loop_fits by lia. simpl.
  unfold one_chunk. rewrite <- join_docs_sconcat.
  now destruct (_join_docs self splits "").
Qed.

Lemma one_chunk_empty (self : TextSplitter) : one_chunk self "" = [].
Proof. unfold one_chunk, _join_docs. now destruct (_strip_whitespace self). Qed.

Lemma split_loop_all_good (self : TextSplitter) _separator recurse splits :
  Forall (fun s => len s < _chunk_size self) splits ->
  forall final_chunks _good_splits,
    split_loop self _separator recurse splits final_chunks _good_splits
    = flush self _separator final_chunks (_good_splits ++ splits).
Proof.
  induction 1 as [|s splits Hs _ IH]; intros final good; simpl.
  - now rewrite app_nil_r.
  - replace (len s <? _chunk_size self) with true
      by (symmetry; apply Z.ltb_lt; lia).
    rewrite IH, <- app_assoc. reflexivity.
Qed.

Lemma split_with_short (self : TextSplitter) sep recurse (text : string) :
  _keep_separator self = true ->
  len text < _chunk_size self ->
  split_with self sep recurse text = Ok (one_chunk self text).
Proof.
  intros Hkeep Hshort. unfold split_with. rewrite Hkeep.
  destruct (split_text_with_regex_keep text sep) as (splits & -> & Hcat).
  simpl res_bind.
  rewrite split_loop_all_good.
  - simpl app. unfold flush.
    destruct splits as [|s splits].
    + simpl in Hcat. subst text. now rewrite one_chunk_empty.
    + rewrite (merge_splits_fits self (s :: splits)).
      * rewrite Hcat. reflexivity.
      * rewrite Hcat. lia.
  - apply List.Forall_forall. intros s Hin.
    pose proof (len_sconcat_le _ _ Hin) as Hle. rewrite Hcat in Hle. lia.
Qed.

Lemma split_text_short (self : TextSplitter) (text : string) :
  _keep_separator self = true ->
  _separators self <> [] ->
  len text < _chunk_size self ->
  split_text self text = Ok (one_chunk self text).
Proof.
  intros Hkeep Hseps Hshort. unfold split_text.
  induction (_separators self) as [|s rest IH]; [congruence|].
  simpl.
  destruct (String.eqb s ""); [now apply split_with_short|].
  destruct (py_contains s text); [now apply split_with_short|].
  destruct rest as [|s' rest]; [now apply split_with_short|].
  apply IH. discriminate.
Qed.

End SplitterFacts.

Section SplitterReturns.

Import RecursiveCharacterTextSplitter.

Variable self : TextSplitter.
Hypothesis overlap_nonneg : 0 <= _chunk_overlap self.

Lemma joined_len_nonneg (n : Z) (l : list string) :
  0 <= n -> 0 <= joined_len n l.
Proof.
  intros Hn. induction l as [|d l IH]; simpl; [lia|].
  pose proof (len_nonneg d). destruct l; lia.
Qed.

Lemma joined_len_snoc (n : Z) (l : list string) (d : string) :
  joined_len n (l ++ [d])
  = joined_len n l + len d + (if 1 <? llen (l ++ [d]) then n else 0).
Proof.
  induction l as [|x l IH].
  - simpl. lia.
  - change ((x :: l) ++ [d]) with (x :: (l ++ [d])).
    cbn [joined_len]. rewrite IH.
    unfold llen. rewrite !length_cons, !length_app. simpl length.
    destruct l as [|y l]; simpl app; cbn [joined_len length].
    + destruct (Z.ltb_spec 1 (Z.of_nat (0 + 1))); [lia|].
      destruct (Z.ltb_spec 1 (Z.of_nat (S (0 + 1)))); lia.
    + destruct (Z.ltb_spec 1 (Z.of_nat (S (length l) + 1))); [|lia].
      destruct (Z.ltb_spec 1 (Z.of_nat (S (S (length l) + 1)))); lia.
Qed.

Lemma pop_front_returns (_len n : Z) (current_doc : list string) :
  0 <= n ->
  exists rest,
    pop_front self _len n current_doc (joined_len n current_doc)
    = Ok (rest, joined_len n rest).
Proof.
  intros Hn. induction current_doc as [|d0 l IH].
  - exists []. cbn [pop_front joined_len]. unfold keep_popping.
    replace (_chunk_overlap self <? 0) with false by (symmetry; apply Z.ltb_ge; lia).
    rewrite andb_false_r. reflexivity.
  - cbn [pop_front].
    destruct (keep_popping self _len n (d0 :: l) (joined_len n (d0 :: l))).
    + destruct IH as [rest IH]. exists rest. rewrite <- IH. f_equal.
      cbn [joined_len]. unfold llen. simpl length.
      destruct l as [|y l]; simpl length.
      * destruct (Z.ltb_spec 1 (Z.of_nat 1)); simpl; lia.
      * destruct (Z.ltb_spec 1 (Z.of_nat (S (S (length l))))); lia.
    + exists (d0 :: l). reflexivity.
Qed.

Lemma merge_step_returns (separator : string) docs current_doc (d : string) :
  exists docs' current_doc',
    merge_step self separator
      (docs, current_doc, joined_len (len separator) current_doc) d
    = Ok (docs', current_doc', joined_len (len separator) current_doc').
Proof.
  unfold merge_step.
  destruct ((_chunk_size self <? _) && (0 <? llen current_doc)).
  - destruct (pop_front_returns (len d) (len separator) current_doc
                (len_nonneg separator)) as [rest ->].
    cbn [res_bind fst snd].
    do 2 eexists. rewrite joined_len_snoc. reflexivity.
  - cbn [res_bind]. do 2 eexists. rewrite joined_len_snoc. reflexivity.
Qed.

Lemma merge_loop_returns (separator : string) (splits : list string) :
  forall docs current_doc,
    exists st,
      merge_loop self separator splits
        (docs, current_doc, joined_len (len separator) current_doc) = Ok st.
Proof.
  induction splits as [|d splits IH]; intros docs current_doc; cbn [merge_loop].
  - eexists. reflexivity.
  - destruct (merge_step_returns separator docs current_doc d)
      as (docs' & current_doc' & ->).
    cbn [res_bind]. apply IH.
Qed.

Lemma merge_splits_returns (separator : string) (splits : list string) :
  exists merged, _merge_splits self splits separator = Ok merged.
Proof.
  unfold _merge_splits.
  destruct (merge_loop_returns separator splits [] []) as [[[docs cur] total] Hst].
  cbn [joined_len] in Hst. rewrite Hst. cbn [res_bind]. eexists. reflexivity.
Qed.

Lemma flush_returns (_separator : string) (final_chunks _good_splits : list string) :
  exists out, flush self _separator final_chunks _good_splits = Ok out.
Proof.
  unfold flush. destruct _good_splits as [|s l]; [eexists; reflexivity|].
  destruct (merge_splits_returns _separator (s :: l)) as [merged ->].
  eexists. reflexivity.
Qed.

Lemma split_loop_returns (_separator : string)
    (recurse : option (string -> Res (list string))) (splits : list string) :
  (forall rec s, recurse = Some rec -> exists out, rec s = Ok out) ->
  forall final_chunks _good_splits,
    exists out,
      split_loop self _separator recurse splits final_chunks _good_splits = Ok out.
Proof.
  intros Hrec. induction splits as [|s splits IH]; intros final good;
    cbn [split_loop].
  - apply flush_returns.
  - destruct (len s <? _chunk_size self); [apply IH|].
    destruct (flush_returns _separator final good) as [final' ->].
    cbn [res_bind].
    destruct recurse as [rec|].
    + destruct (Hrec rec s eq_refl) as [other ->]. cbn [res_bind]. apply IH.
    + cbn [res_bind]. apply IH.
Qed.

Lemma split_text_with_regex_returns (text sep : string) (keep : bool) :
  exists splits, _split_text_with_regex text sep keep = Ok splits.
Proof.
  destruct keep.
  - destruct (split_text_with_regex_keep text sep) as (splits & H & _). eauto.
  - unfold _split_text_with_regex.
    destruct (String.eqb sep ""); eexists; reflexivity.
Qed.

Lemma split_with_returns (sep : string)
    (recurse : option (string -> Res (list string))) (text : string) :
  (forall rec s, recurse = Some rec -> exists out, rec s = Ok out) ->
  exists out, split_with self sep recurse text = Ok out.
Proof.
  intros Hrec. unfold split_with.
  destruct (split_text_with_regex_returns text sep (_keep_separator self))
    as [splits ->].
  cbn [res_bind]. now apply split_loop_returns.
Qed.

Lemma _split_text_returns (seps : list string) :
  seps <> [] ->
  forall text, exists out, _split_text self seps text = Ok out.
Proof.
  induction seps as [|s rest IH]; [congruence|]. intros _ text.
  cbn [_split_text].
  destruct (String.eqb s "").
  - apply split_with_returns. discriminate.
  - destruct (py_contains s text).
    + apply split_with_returns. intros rec s' Hrec.
      destruct rest as [|s2 rest]; [discriminate|].
      injection Hrec as <-. apply IH. discriminate.
    + destruct rest as [|s2 rest].
      * apply split_with_returns. discriminate.
      * apply IH. discriminate.
Qed.

End SplitterReturns.

(** X19. The chunker of a processor built by [DocumentProcessor_init] with
    an overlap that is not negative returns for every list of documents: the
    library splitter gives a list of pieces for each document, and the
    result is the chunks of these pieces in document order. *)
Lemma chunk_documents_returns (cfg : RAGConfig) (p : DocumentProcessor)
    (documents : list Document) :
  DocumentProcessor_init cfg = Ok p ->
  0 <= chunk_overlap cfg ->
  exists pieces,
    splits_to RecursiveCharacterTextSplitter.split_text p documents pieces
    /\ chunk_documents RecursiveCharacterTextSplitter.split_text p documents
       = Ok (concat (zip_with chunks_of documents pieces)).
Proof.
  intros Hinit Hoverlap.
  apply DocumentProcessor_init_splitter in Hinit as [_ Hts].
  assert (exists pieces,
             splits_to RecursiveCharacterTextSplitter.split_text p documents pieces)
    as [pieces Hpieces].
  { induction documents as [|doc documents [pieces IH]].
    - exists []. constructor.
    - destruct (_split_text_returns (text_splitter p)) with
        (seps := separators) (text := page_content doc) as [ps Hps].
      + now rewrite Hts.
      + discriminate.
      + exists (ps :: pieces). constructor; [|exact IH].
        unfold RecursiveCharacterTextSplitter.split_text. now rewrite Hts at 2. }
  exists pieces. split; [assumption|].
  unfold chunk_documents. now rewrite (chunk_loop_ok _ _ _ _ Hpieces).
Qed.

Lemma one_chunk_stripped (self : TextSplitter) (text : string) :
  _strip_whitespace self = true ->
  one_chunk self text
  = if String.eqb (py_strip text) "" then [] else [py_strip text].
Proof.
  intros Hstrip.
  unfold one_chunk, RecursiveCharacterTextSplitter._join_docs.
  rewrite Hstrip. simpl py_join.
  now destruct (String.eqb (py_strip text) "").
Qed.

(** The chunks of a document that fits in one chunk, for a processor built
    by [DocumentProcessor_init]. *)
Lemma chunk_short_document (cfg : RAGConfig) (p : DocumentProcessor) (doc : Document) :
  DocumentProcessor_init cfg = Ok p ->
  len (page_content doc) < chunk_size cfg ->
  chunk_documents RecursiveCharacterTextSplitter.split_text p [doc]
  = Ok (chunks_of doc
          (if String.eqb (py_strip (page_content doc)) ""
           then [] else [py_strip (page_content doc)])).
Proof.
  intros Hinit Hshort.
  apply DocumentProcessor_init_splitter in Hinit as [_ Hts].
  unfold chunk_documents. simpl. rewrite Hts.
  rewrite split_text_short; [|reflexivity|discriminate|assumption].
  rewrite one_chunk_stripped by reflexivity. reflexivity.
Qed.

Lemma empty_document_yields_no_chunk :
  exists p,
    DocumentProcessor_init (RAGConfig_default "key") = Ok p
    /\ len (page_content empty_doc) < chunk_size (RAGConfig_default "key")
    /\ chunk_documents RecursiveCharacterTextSplitter.split_text p [empty_doc] = Ok []
    /\ len (page_content padded_doc) < chunk_size (RAGConfig_default "key")
    /\ (exists chunk,
          chunk_documents RecursiveCharacterTextSplitter.split_text p [padded_doc]
          = Ok [chunk]
          /\ page_content chunk = "Write the test first."
          /\ page_content chunk <> page_content padded_doc).
Proof.
  eexists. split; [reflexivity|].
  split; [reflexivity|]. split; [vm_compute; reflexivity|].
  split; [reflexivity|].
  eexists. split; [vm_compute; reflexivity|].
  split; [reflexivity | discriminate].
Qed.

(** C6, as the code has it. A document shorter than [chunk_size] that holds
    at least one character other than white space yields exactly one chunk,
    with [chunk_index = 0] and [total_chunks = 1]; its content is the
    document's content without the white space at its two ends, hence the
    document's content itself when there is none. A shorter document that is
    empty or all white space yields no chunk. *)
Theorem short_document_is_a_single_chunk
    (cfg : RAGConfig) (p : DocumentProcessor) (doc : Document) :
  DocumentProcessor_init cfg = Ok p ->
  len (page_content doc) < chunk_size cfg ->
  (py_strip (page_content doc) <> "" ->
   exists chunk,
     chunk_documents RecursiveCharacterTextSplitter.split_text p [doc] = Ok [chunk]
     /\ page_content chunk = py_strip (page_content doc)
     /\ metadata chunk !! "chunk_index" = Some (MInt 0)
     /\ metadata chunk !! "total_chunks" = Some (MInt 1)
     /\ (forall key, key <> "chunk_index" -> key <> "total_chunks" ->
           metadata chunk !! key = metadata doc !! key)
     /\ (py_strip (page_content doc) = page_content doc ->
         page_content chunk = page_content doc))
  /\ (py_strip (page_content doc) = "" ->
      chunk_documents RecursiveCharacterTextSplitter.split_text p [doc] = Ok []).
Proof.
  intros Hinit Hshort.
  rewrite (chunk_short_document cfg p doc Hinit Hshort).
  split.
  - intros Hvisible.
    destruct (String.eqb_spec (py_strip (page_content doc)) "") as [|_];
      [contradiction|].
    eexists. split; [reflexivity|]. simpl.
    destruct (chunk_metadata_lookup doc 0 (llen [py_strip (page_content doc)]))
      as (Hi & Ht & Hk).
    repeat split; try assumption. now intros ->.
  - intros ->. reflexivity.
Qed.

Lemma short_document_sample :
  (py_strip (page_content (doc_of "Write the test first." "tdd.md")) <> "" ->
   exists chunk,
     chunk_documents RecursiveCharacterTextSplitter.split_text
       default_processor [doc_of "Write the test first." "tdd.md"] = Ok [chunk]
     /\ page_content chunk
        = py_strip (page_content (doc_of "Write the test first." "tdd.md"))
     /\ metadata chunk !! "chunk_index" = Some (MInt 0)
     /\ metadata chunk !! "total_chunks" = Some (MInt 1)
     /\ (forall key, key <> "chunk_index" -> key <> "total_chunks" ->
           metadata chunk !! key
           = metadata (doc_of "Write the test first." "tdd.md") !! key)
     /\ (py_strip (page_content (doc_of "Write the test first." "tdd.md"))
         = page_content (doc_of "Write the test first." "tdd.md") ->
         page_content chunk
         = page_content (doc_of "Write the test first." "tdd.md")))
  /\ (py_strip (page_content (doc_of "Write the test first." "tdd.md")) = "" ->
      chunk_documents RecursiveCharacterTextSplitter.split_text
        default_processor [doc_of "Write the test first." "tdd.md"] = Ok []).
Proof.
  apply (short_document_is_a_single_chunk (RAGConfig_default "key")).
  - reflexivity.
  - reflexivity.
Defined.

(** * The loader, ingestion and the remaining endpoints *)

(** ** More on sessions and queries *)

Lemma get_or_create_memory_frame (self : RAGPipeline) (sid : string) :
  vector_store (get_or_create_memory self sid) = vector_store self
  /\ config (get_or_create_memory self sid) = config self
  /\ history (get_or_create_memory self sid) sid = history self sid
  /\ (exists m, conversation_memory (get_or_create_memory self sid) !! sid = Some m
                /\ chat_memory m = history self sid)
  /\ (forall other, other <> sid ->
        conversation_memory (get_or_create_memory self sid) !! other
        = conversation_memory self !! other).
Proof.
  unfold get_or_create_memory, history.
  destruct (conversation_memory self !! sid) as [m|] eqn:Hm; simpl.
  - rewrite Hm. repeat split. exists m. now split.
  - rewrite lookup_insert_eq. simpl. repeat split.
    + exists new_memory. now split.
    + intros other Hother. now rewrite lookup_insert_ne.
Qed.

(** [query] with a session id, case by case. *)
Lemma query_with_session (E : External) self log q sid :
  truthy sid = true ->
  query E self log q (Some sid) =
  match vectorstore (vector_store self) with
  | None =>
      (Raise (AttributeError "'NoneType' object has no attribute 'as_retriever'"),
       get_or_create_memory self sid, log)
  | Some vs =>
      let k := top_k_results (config self) in
      let log' := log ++ [CallChain vs k (Some (history self sid)) q] in
      match run_chain E log vs k (Some (history self sid)) q with
      | Raise e => (Raise e, get_or_create_memory self sid, log')
      | Ok (ans, docs) =>
          (Ok {| qr_answer := ans;
                 qr_sources := map format_source docs;
                 qr_confidence := _calculate_confidence docs;
                 qr_session_id := Some sid |},
           set_conversation_memory (get_or_create_memory self sid)
             (alter (fun m => save_context m q ans) sid
                (conversation_memory (get_or_create_memory self sid))),
           log')
      end
  end.
Proof.
  intros Ht. unfold query, memory_of. rewrite Ht.
  destruct (get_or_create_memory_frame self sid) as (Hv & Hc & _ & (m & Hm & Hh) & _).
  rewrite Hv, Hc.
  destruct (vectorstore (vector_store self)) as [vs|]; [|reflexivity].
  simpl. rewrite Hm. simpl. rewrite Hh.
  destruct (run_chain E log vs _ _ q) as [[ans docs]|e]; reflexivity.
Qed.

(** X1. [get_or_create_memory] never resets a session: the history of the
    session is the same after the call as before it, and afterwards the
    session exists. On a session that exists the call changes nothing; on
    one that does not it stores a fresh memory and the store grows by
    exactly one session. Every other session is left as it was, and a second
    call changes nothing more. *)
Theorem get_or_create_memory_never_resets (self : RAGPipeline) (sid : string) :
  history (get_or_create_memory self sid) sid = history self sid
  /\ is_Some (conversation_memory (get_or_create_memory self sid) !! sid)
  /\ (is_Some (conversation_memory self !! sid) ->
      get_or_create_memory self sid = self)
  /\ (conversation_memory self !! sid = None ->
      conversation_memory (get_or_create_memory self sid) !! sid = Some new_memory
      /\ size (conversation_memory (get_or_create_memory self sid))
         = S (size (conversation_memory self)))
  /\ (forall other, other <> sid ->
        conversation_memory (get_or_create_memory self sid) !! other
        = conversation_memory self !! other)
  /\ get_or_create_memory (get_or_create_memory self sid) sid
     = get_or_create_memory self sid.
Proof.
  destruct (get_or_create_memory_frame self sid) as (_ & _ & Hh & (m & Hm & _) & Ho).
  split; [exact Hh|]. split; [eauto|]. split; [|split; [|split; [exact Ho|]]].
  - intros [m' Hm']. unfold get_or_create_memory. now rewrite Hm'.
  - intros Hn. unfold get_or_create_memory. rewrite Hn. simpl.
    split; [apply lookup_insert_eq | now apply map_size_insert_None].
  - unfold get_or_create_memory at 1. now rewrite Hm.
Qed.

(** X2. A query with a session id that fails, because there is no store
    object or because the chain raises, records no turn: the history of the
    session is as before the call. The session itself is kept: the pipeline
    after the failed query is the one [get_or_create_memory] leaves, so a
    session that did not exist now exists, with a fresh memory. *)
Theorem failed_query_records_no_turn_but_keeps_the_session
    (E : External) (self : RAGPipeline) (log : list ExternalCall)
    (q sid : string) :
  truthy sid = true ->
  is_ok (fst (fst (query E self log q (Some sid)))) = false ->
  snd (fst (query E self log q (Some sid))) = get_or_create_memory self sid
  /\ history (snd (fst (query E self log q (Some sid)))) sid = history self sid
  /\ is_Some (conversation_memory (snd (fst (query E self log q (Some sid)))) !! sid)
  /\ (conversation_memory self !! sid = None ->
      conversation_memory (snd (fst (query E self log q (Some sid)))) !! sid
      = Some new_memory).
Proof.
  intros Ht. rewrite (query_with_session E self log q sid Ht).
  destruct (get_or_create_memory_frame self sid) as (_ & _ & Hh & (m & Hm & _) & _).
  assert (conversation_memory self !! sid = None ->
          conversation_memory (get_or_create_memory self sid) !! sid = Some new_memory)
    as Hnew.
  { intros Hn. unfold get_or_create_memory. rewrite Hn. apply lookup_insert_eq. }
  destruct (vectorstore (vector_store self)) as [vs|]; simpl.
  - destruct (run_chain E log vs _ _ q) as [[ans docs]|e]; simpl;
      [discriminate|]. intros _. repeat split; eauto.
  - intros _. repeat split; eauto.
Qed.

(** X3. A query touches no session but its own: the memory stored under any
    other id is the same after the query as before it, whatever the outcome
    of the query. *)
Theorem query_leaves_other_sessions_alone
    (E : External) (self : RAGPipeline) (log : list ExternalCall)
    (q : string) (session_id : option string) (other : string) :
  session_id <> Some other ->
  conversation_memory (snd (fst (query E self log q session_id))) !! other
  = conversation_memory self !! other.
Proof.
  intros Hother.
  destruct (memory_of session_id) as [sid|] eqn:Hmem.
  - assert (session_id = Some sid /\ truthy sid = true) as [-> Ht].
    { unfold memory_of in Hmem. destruct session_id as [s|]; [|discriminate].
      destruct (truthy s) eqn:Hs; [|discriminate]. now injection Hmem as ->. }
    assert (other <> sid) as Hne by congruence.
    rewrite (query_with_session E self log q sid Ht).
    destruct (get_or_create_memory_frame self sid) as (_ & _ & _ & _ & Ho).
    destruct (vectorstore (vector_store self)) as [vs|]; simpl; [|now apply Ho].
    destruct (run_chain E log vs _ _ q) as [[ans docs]|e]; simpl; [|now apply Ho].
    rewrite lookup_alter_ne by congruence. now apply Ho.
  - destruct (query_no_memory_frame E self log q session_id Hmem) as [-> _].
    reflexivity.
Qed.

Lemma query_ok_with_session (E : External) self log q sid r self' log' :
  truthy sid = true ->
  query E self log q (Some sid) = (Ok r, self', log') ->
  exists vs,
    vectorstore (vector_store self) = Some vs
    /\ vector_store self' = vector_store self
    /\ config self' = config self
    /\ log' = log ++ [CallChain vs (top_k_results (config self))
                        (Some (history self sid)) q]
    /\ history self' sid
       = history self sid ++ [HumanMessage q; AIMessage (qr_answer r)].
Proof.
  intros Ht. rewrite (query_with_session E self log q sid Ht).
  destruct (get_or_create_memory_frame self sid) as (Hv & Hc & _ & (m & Hm & Hh) & _).
  destruct (vectorstore (vector_store self)) as [vs|]; [|discriminate].
  simpl. destruct (run_chain E log vs _ _ q) as [[ans docs]|e]; [|discriminate].
  intros [= <- <- <-]. exists vs. simpl.
  repeat split; try assumption.
  unfold history at 1. simpl. rewrite lookup_alter_eq, Hm. simpl. now rewrite Hh.
Qed.

Lemma query_call_with_session (E : External) self log q sid vs :
  truthy sid = true ->
  vectorstore (vector_store self) = Some vs ->
  snd (query E self log q (Some sid))
  = log ++ [CallChain vs (top_k_results (config self)) (Some (history self sid)) q].
Proof.
  intros Ht Hvs. rewrite (query_with_session E self log q sid Ht), Hvs. simpl.
  destruct (run_chain E log vs _ _ q) as [[ans docs]|e]; reflexivity.
Qed.

(** X4. The follow-up question is answered in the light of the turn before
    it: after a successful query in a session, the next query of that
    session calls the chain with the history the first query saw, extended
    by the first question and its answer. These two chain calls are all the
    two queries ask of the outside. *)
Theorem next_query_carries_the_previous_turn
    (E : External) (self self1 : RAGPipeline) (log log1 : list ExternalCall)
    (q1 q2 sid : string) (r1 : QueryResult) :
  truthy sid = true ->
  query E self log q1 (Some sid) = (Ok r1, self1, log1) ->
  exists vs,
    vectorstore (vector_store self) = Some vs
    /\ snd (query E self1 log1 q2 (Some sid))
       = log ++ [CallChain vs (top_k_results (config self))
                   (Some (history self sid)) q1;
                 CallChain vs (top_k_results (config self))
                   (Some (history self sid
                          ++ [HumanMessage q1; AIMessage (qr_answer r1)])) q2].
Proof.
  intros Ht Hq1.
  destruct (query_ok_with_session E self log q1 sid r1 self1 log1 Ht Hq1)
    as (vs & Hvs & Hv & Hc & -> & Hh).
  exists vs. split; [assumption|].
  rewrite (query_call_with_session E self1 _ q2 sid vs Ht) by now rewrite Hv.
  rewrite Hc, Hh, <- app_assoc. reflexivity.
Qed.

(** X5. Clearing a session forgets it: afterwards its history is empty, the
    next query of that session calls the chain with an empty chat history,
    and when that query succeeds the history of the session holds this one
    turn only. *)
Theorem query_after_clear_starts_a_fresh_history
    (E : External) (self : RAGPipeline) (log : list ExternalCall)
    (q sid : string) (vs : Chroma) :
  truthy sid = true ->
  vectorstore (vector_store self) = Some vs ->
  history (snd (clear_session self sid)) sid = []
  /\ snd (query E (snd (clear_session self sid)) log q (Some sid))
     = log ++ [CallChain vs (top_k_results (config self)) (Some []) q]
  /\ (forall r self' log',
        query E (snd (clear_session self sid)) log q (Some sid) = (Ok r, self', log') ->
        history self' sid = [HumanMessage q; AIMessage (qr_answer r)]).
Proof.
  intros Ht Hvs. rewrite clear_session_delete. simpl.
  set (self0 := set_conversation_memory self (delete sid (conversation_memory self))).
  assert (history self0 sid = []) as Hh0.
  { unfold history, self0. simpl. now rewrite lookup_delete_eq. }
  split; [exact Hh0|]. split.
  - rewrite (query_call_with_session E self0 log q sid vs Ht Hvs). now rewrite Hh0.
  - intros r self' log' Hq.
    destruct (query_ok_with_session E self0 log q sid r self' log' Ht Hq)
      as (_ & _ & _ & _ & _ & Hh).
    now rewrite Hh, Hh0.
Qed.

(** ** Source previews *)

Lemma substring_0_length (n : nat) (s : string) :
  String.length (String.substring 0 n s) = Nat.min n (String.length s).
Proof.
  revert s. induction n as [|n IH]; intros s.
  - now destruct s.
  - destruct s as [|c s]; [reflexivity|]. simpl. now rewrite IH.
Qed.

Lemma substring_0_prefix (n : nat) (s : string) :
  s = String.substring 0 n s +:+ sdrop n s.
Proof.
  revert s. induction n as [|n IH]; intros s.
  - now destruct s.
  - destruct s as [|c s]; [reflexivity|]. simpl.
    rewrite sapp_cons. f_equal. apply IH.
Qed.

(** X6. The content of a source in a query result is a preview: the first
    200 characters of the chunk followed by three dots, hence between 3 and
    203 characters long whatever the length of the chunk. A chunk whose
    metadata has no [source] or no [file_name] is reported with [Unknown]
    in its place. *)
Theorem source_previews_are_bounded
    (E : External) (self self' : RAGPipeline) (log log' : list ExternalCall)
    (q : string) (session_id : option string) (r : QueryResult) :
  query E self log q session_id = (Ok r, self', log') ->
  Forall (fun s => 3 <= len (sd_content s) <= 203) (qr_sources r)
  /\ (forall doc : Document,
        len (sd_content (format_source doc))
        = Z.min 200 (len (page_content doc)) + 3
        /\ sd_content (format_source doc)
           = String.substring 0 200 (page_content doc) +:+ "..."
        /\ page_content doc
           = String.substring 0 200 (page_content doc)
             +:+ sdrop 200 (page_content doc)
        /\ (metadata doc !! "source" = None ->
            sd_source (format_source doc) = MStr "Unknown")
        /\ (metadata doc !! "file_name" = None ->
            sd_file_name (format_source doc) = MStr "Unknown")).
Proof.
  intros Hq.
  assert (forall doc : Document,
             len (sd_content (format_source doc))
             = Z.min 200 (len (page_content doc)) + 3) as Hlen.
  { intros doc. unfold format_source. simpl sd_content. rewrite len_app.
    change (len "...") with 3.
    unfold len. rewrite substring_0_length, Nat2Z.inj_min. reflexivity. }
  split.
  - assert (exists docs, qr_sources r = map format_source docs) as [docs ->].
    { unfold query in Hq.
      destruct (vectorstore (vector_store _)) as [vs|]; [|discriminate].
      destruct (run_chain E log vs _ _ q) as [[ans docs]|e]; [|discriminate].
      injection Hq as <- _ _. now exists docs. }
    apply List.Forall_forall. intros s Hin.
    apply in_map_iff in Hin as (doc & <- & _).
    rewrite Hlen. pose proof (len_nonneg (page_content doc)). lia.
  - intros doc. split; [apply Hlen|]. split; [reflexivity|].
    split; [apply substring_0_prefix|].
    unfold format_source. simpl. split; intros ->; reflexivity.
Qed.

(** ** The directory loader *)

Lemma py_endswith_spec (suffix s : string) :
  py_endswith suffix s = true <-> exists stem, s = stem +:+ suffix.
Proof.
  induction s as [|c s IH]; cbn [py_endswith].
  - rewrite orb_false_r. split.
    + intros H. apply String.eqb_eq in H as <-. now exists "".
    + intros [stem H]. destruct stem; [|discriminate].
      rewrite sapp_nil_l in H. subst suffix. reflexivity.
  - rewrite orb_true_iff, IH, String.eqb_eq. split.
    + intros [<- | [stem ->]]; [now exists "" | now exists (String c stem)].
    + intros [[|c' stem] H].
      * left. now rewrite sapp_nil_l in H.
      * right. rewrite sapp_cons in H. injection H as _ ->. now exists stem.
Qed.

Lemma load_files_app (fs : FileSystem) dir root (files : list string) :
  forall documents,
    load_files fs dir root files documents
    = documents ++ loaded_from fs dir (root, files).
Proof.
  unfold loaded_from. simpl.
  induction files as [|file files IH]; intros documents; simpl.
  - now rewrite app_nil_r.
  - rewrite IH. destruct (py_endswith ".md" file); [|reflexivity].
    destruct (load_file fs dir root file); simpl; [|reflexivity].
    now rewrite <- app_assoc.
Qed.

Lemma load_walk_app (fs : FileSystem) dir (entries : list (string * list string)) :
  forall documents,
    load_walk fs dir entries documents
    = documents ++ flat_map (loaded_from fs dir) entries.
Proof.
  induction entries as [|[root files] entries IH]; intros documents; simpl.
  - now rewrite app_nil_r.
  - rewrite IH, load_files_app, <- app_assoc. reflexivity.
Qed.

Lemma load_file_metadata (fs : FileSystem) dir root file (doc : Document) :
  load_file fs dir root file = Ok doc ->
  (exists rel tokens,
      read_text fs (os_path_join fs root file) = Ok (page_content doc)
      /\ os_path_relpath fs (os_path_join fs root file) dir = Ok rel
      /\ count_tokens fs (page_content doc) = Ok tokens
      /\ metadata doc !! "source" = Some (MStr rel)
      /\ metadata doc !! "file_path" = Some (MStr (os_path_join fs root file))
      /\ metadata doc !! "file_name" = Some (MStr file)
      /\ metadata doc !! "tokens" = Some (MInt tokens))
  /\ dom (metadata doc) = loader_keys
  /\ metadata doc !! "chunk_index" = None
  /\ metadata doc !! "total_chunks" = None.
Proof.
  unfold load_file.
  destruct (read_text fs _) as [content|]; [|discriminate]. simpl.
  destruct (os_path_relpath fs _ dir) as [rel|]; [|discriminate]. simpl.
  destruct (count_tokens fs content) as [tokens|] eqn:Htok; [|discriminate]. simpl.
  intros [= <-]. simpl. split; [|repeat split].
  exists rel, tokens. repeat split. exact Htok.
Qed.

Lemma loaded_documents (fs : FileSystem) dir (doc : Document) :
  In doc (load_documents_from_directory fs dir) <->
  exists root files file,
    In (root, files) (os_walk fs dir) /\ In file files
    /\ py_endswith ".md" file = true
    /\ load_file fs dir root file = Ok doc.
Proof.
  unfold load_documents_from_directory. rewrite load_walk_app. simpl.
  rewrite in_flat_map. split.
  - intros ([root files] & Hentry & Hdoc). unfold loaded_from in Hdoc.
    apply in_flat_map in Hdoc as (file & Hfile & Hdoc). simpl in *.
    destruct (py_endswith ".md" file) eqn:Hmd; [|contradiction].
    destruct (load_file fs dir root file) as [d|] eqn:Hload; [|contradiction].
    destruct Hdoc as [<- | []]. now exists root, files, file.
  - intros (root & files & file & Hentry & Hfile & Hmd & Hload).
    exists (root, files). split; [assumption|].
    unfold loaded_from. apply in_flat_map. exists file. split; [assumption|].
    simpl. rewrite Hmd, Hload. now left.
Qed.

(** X7. The loader returns exactly the files of the walk whose name ends in
    [.md] and whose loading raises nothing, in walk order: a file with
    another name is passed over, and so is one that cannot be read, made
    relative or tokenized. Each document carries exactly the four keys
    [source], [file_path], [file_name] and [tokens]: its name ends in [.md],
    its content is what was read at [file_path], [source] is that path
    relative to the directory and [tokens] is the token count of the
    content. An empty walk gives no document. *)
Theorem loader_loads_exactly_the_readable_markdown_files
    (fs : FileSystem) (directory_path : string) :
  (forall doc,
      In doc (load_documents_from_directory fs directory_path) <->
      exists root files file,
        In (root, files) (os_walk fs directory_path) /\ In file files
        /\ py_endswith ".md" file = true
        /\ load_file fs directory_path root file = Ok doc)
  /\ (forall doc,
        In doc (load_documents_from_directory fs directory_path) ->
        dom (metadata doc) = loader_keys
        /\ exists root stem rel tokens,
             metadata doc !! "file_name" = Some (MStr (stem +:+ ".md"))
             /\ metadata doc !! "file_path"
                = Some (MStr (os_path_join fs root (stem +:+ ".md")))
             /\ read_text fs (os_path_join fs root (stem +:+ ".md"))
                = Ok (page_content doc)
             /\ metadata doc !! "source" = Some (MStr rel)
             /\ os_path_relpath fs (os_path_join fs root (stem +:+ ".md"))
                  directory_path = Ok rel
             /\ metadata doc !! "tokens" = Some (MInt tokens)
             /\ count_tokens fs (page_content doc) = Ok tokens)
  /\ load_documents_from_directory fs directory_path
     = flat_map (loaded_from fs directory_path) (os_walk fs directory_path)
  /\ (os_walk fs directory_path = [] ->
      load_documents_from_directory fs directory_path = []).
Proof.
  split; [apply loaded_documents|]. split; [|split].
  - intros doc Hdoc.
    apply loaded_documents in Hdoc as (root & files & file & _ & _ & Hmd & Hload).
    apply py_endswith_spec in Hmd as [stem ->].
    apply load_file_metadata in Hload
      as ((rel & tokens & Hread & Hrel & Htok & Hs & Hp & Hn & Ht) & Hdom & _).
    split; [assumption|].
    exists root, stem, rel, tokens. repeat split; assumption.
  - unfold load_documents_from_directory. now rewrite load_walk_app.
  - intros Hwalk. unfold load_documents_from_directory. now rewrite Hwalk.
Qed.

(** ** Processing a directory *)

Lemma in_concat_chunks (documents : list Document) :
  forall (pieces : list (list string)) (chunk : Document),
    In chunk (concat (zip_with chunks_of documents pieces)) ->
    exists doc ps, In doc documents /\ In chunk (chunks_of doc ps).
Proof.
  induction documents as [|doc documents IH]; intros [|ps pieces] chunk;
    simpl; try contradiction.
  rewrite in_app_iff. intros [Hin | Hin].
  - exists doc, ps. split; [now left | assumption].
  - destruct (IH pieces chunk Hin) as (d & p & Hd & Hc).
    exists d, p. split; [now right | assumption].
Qed.

(** X8. Every chunk [process_documents] returns comes from a document the
    loader returned: it carries every field of that document unchanged, and
    its metadata holds exactly the four keys of the loader with
    [chunk_index] and [total_chunks], where 0 <= chunk_index < total_chunks.
    This holds for every splitter. *)
Theorem processed_chunks_keep_the_loader_fields
    (fs : FileSystem)
    (split_text : TextSplitter -> string -> Res (list string))
    (self : DocumentProcessor) (directory_path : string)
    (out : list Document) :
  process_documents fs split_text self directory_path = Ok out ->
  Forall (fun chunk =>
            exists doc (i n : nat),
              In doc (load_documents_from_directory fs directory_path)
              /\ (forall key v, metadata doc !! key = Some v ->
                                metadata chunk !! key = Some v)
              /\ dom (metadata chunk)
                 = loader_keys ∪ {[ "chunk_index"; "total_chunks" ]}
              /\ metadata chunk !! "chunk_index" = Some (MInt (Z.of_nat i))
              /\ metadata chunk !! "total_chunks" = Some (MInt (Z.of_nat n))
              /\ (i < n)%nat)
         out.
Proof.
  unfold process_documents, chunk_documents. intros Hout.
  apply List.Forall_forall. intros chunk Hchunk.
  destruct (chunk_loop_inv _ _ _ _ _ Hout) as [pieces Hpieces].
  rewrite (chunk_loop_ok _ _ _ _ Hpieces) in Hout. injection Hout as <-.
  simpl in Hchunk.
  apply in_concat_chunks in Hchunk as (doc & ps & Hdoc & Hchunk).
  apply list_elem_of_In, list_elem_of_lookup in Hchunk as [i Hi].
  pose proof (lookup_lt_Some _ _ _ Hi) as Hlt. rewrite chunks_of_length in Hlt.
  apply chunks_of_lookup in Hi as [_ Hmeta].
  destruct (chunk_metadata_lookup doc (Z.of_nat i) (llen ps)) as (Hci & Htc & Hk).
  apply loaded_documents in Hdoc as Hload.
  destruct Hload as (root & files & file & _ & _ & _ & Hload).
  apply load_file_metadata in Hload as (_ & Hdom & Hn1 & Hn2).
  exists doc, i, (length ps). rewrite Hmeta.
  split; [assumption|]. split; [|split; [|split; [|split]]]; try assumption.
  - intros key v Hv. rewrite Hk; [assumption| |]; congruence.
  - unfold chunk_metadata. rewrite !dom_insert_L, Hdom. set_solver.
Qed.

(** ** Ingestion *)

Lemma create_vectorstore_cases (E : External) (v : VectorStore) log documents :
  (exists vs,
      chroma_from_documents E log documents (collection_name (vs_config v))
        (chroma_persist_directory (vs_config v)) = Ok vs
      /\ create_vectorstore E v log documents
         = (Ok vs, set_vectorstore v (Some vs),
            log ++ [CallChromaCreate documents (collection_name (vs_config v))
                      (chroma_persist_directory (vs_config v))]))
  \/ (exists e,
        create_vectorstore E v log documents
        = (Raise e, v,
           log ++ [CallChromaCreate documents (collection_name (vs_config v))
                     (chroma_persist_directory (vs_config v))])).
Proof.
  unfold create_vectorstore.
  destruct (chroma_from_documents E log documents _ _) as [vs|e]; eauto.
Qed.

Lemma app_one_more {A : Type} (l : list A) (x : A) : l ++ [x] = l -> False.
Proof.
  intros H. apply (f_equal (@length A)) in H. rewrite length_app in H.
  simpl in H. lia.
Qed.

Lemma set_vector_store_same (self : RAGPipeline) :
  set_vector_store self (vector_store self) = self.
Proof. now destruct self. Qed.

(** X9. Ingesting documents leaves every session, the configuration and the
    settings of the store as they were, and a pipeline that had a store
    object still has one afterwards. When nothing was asked of the outside,
    ingestion failed and the pipeline is exactly as before; a configuration
    whose overlap exceeds the chunk size fails in this way. When ingestion
    succeeds, the processed documents of the directory were handed to the
    store in one call, the only one issued, and the store it answered is in
    place. *)
Theorem ingestion_keeps_sessions_and_never_drops_the_store
    (E : External) (fs : FileSystem)
    (split_text : TextSplitter -> string -> Res (list string))
    (self : RAGPipeline) (log : list ExternalCall) (docs_directory : string) :
  let out := initialize_from_documents E fs split_text self log docs_directory in
  conversation_memory (snd (fst out)) = conversation_memory self
  /\ config (snd (fst out)) = config self
  /\ vs_config (vector_store (snd (fst out))) = vs_config (vector_store self)
  /\ (is_Some (vectorstore (vector_store self)) ->
      is_Some (vectorstore (vector_store (snd (fst out)))))
  /\ (snd out = log -> is_ok (fst (fst out)) = false /\ snd (fst out) = self)
  /\ (is_ok (fst (fst out)) = true ->
      exists processor documents vs,
        DocumentProcessor_init (config self) = Ok processor
        /\ process_documents fs split_text processor docs_directory = Ok documents
        /\ chroma_from_documents E log documents
             (collection_name (vs_config (vector_store self)))
             (chroma_persist_directory (vs_config (vector_store self))) = Ok vs
        /\ vectorstore (vector_store (snd (fst out))) = Some vs
        /\ snd out
           = log ++ [CallChromaCreate documents
                       (collection_name (vs_config (vector_store self)))
                       (chroma_persist_directory (vs_config (vector_store self)))])
  /\ (chunk_size (config self) < chunk_overlap (config self) ->
      is_ok (fst (fst out)) = false /\ snd out = log).
Proof.
  intros out. subst out. unfold initialize_from_documents.
  destruct (DocumentProcessor_init (config self)) as [processor|e] eqn:Hinit.
  2: { simpl. repeat split; try discriminate; intros; trivial. }
  assert (chunk_size (config self) < chunk_overlap (config self) -> False) as Hcfg.
  { intros Hlt. unfold DocumentProcessor_init,
      RecursiveCharacterTextSplitter.__init__ in Hinit.
    apply Z.ltb_lt in Hlt. rewrite Hlt in Hinit. discriminate. }
  destruct (encoding_for_model fs) as [[]|e].
  2: { simpl. repeat split; try discriminate; intros; trivial; now exfalso. }
  destruct (process_documents fs split_text processor docs_directory)
    as [documents|e] eqn:Hdocs.
  2: { simpl. repeat split; try discriminate; intros; trivial; now exfalso. }
  destruct (create_vectorstore_cases E (vector_store self) log documents)
    as [(vs & Hvs & ->) | (e & ->)]; simpl.
  - split; [reflexivity|]. split; [reflexivity|]. split; [reflexivity|].
    split; [eauto|]. split; [intros Hlog; now apply app_one_more in Hlog|].
    split; [|intros; now exfalso].
    intros _. exists processor, documents, vs. repeat split; assumption.
  - rewrite set_vector_store_same.
    split; [reflexivity|]. split; [reflexivity|]. split; [reflexivity|].
    split; [trivial|]. split; [intros Hlog; now apply app_one_more in Hlog|].
    split; [discriminate|]. intros; now exfalso.
Qed.

(** ** Health, readiness and statistics *)

(** X10. Startup builds the clients of the pipeline first. When that
    raises, startup raises the same exception, issues no call and leaves the
    application as it was, so an application that had no pipeline has none
    and its health endpoint says [initializing]. Otherwise startup succeeds
    and leaves a pipeline over the default configuration, with no session,
    after one attempt to open the persisted collection and no other call:
    the health endpoint then says [healthy], and it says that the vector
    store is ready exactly when the collection could be opened. A collection
    that was opened and holds no chunk is reported ready by the health
    endpoint, while the query endpoint answers 503. *)
Theorem startup_is_ready_exactly_when_the_store_loads
    (E : External) (clients : RAGConfig -> Res unit) (api_key : string)
    (app : App) :
  let cfg := RAGConfig_default api_key in
  let loaded :=
    chroma_open E (calls app) (collection_name cfg) (chroma_persist_directory cfg) in
  let out := startup_event E clients api_key app in
  (forall e, clients cfg = Raise e ->
     out = (Raise e, app)
     /\ (rag_pipeline app = None ->
         health_status (health_check E (snd out)) = "initializing"
         /\ vectorstore_ready (health_check E (snd out)) = false))
  /\ (is_ok (clients cfg) = true ->
      fst out = Ok tt
      /\ health_status (health_check E (snd out)) = "healthy"
      /\ vectorstore_ready (health_check E (snd out)) = is_ok loaded
      /\ calls (snd out)
         = calls app
           ++ [CallChromaOpen (collection_name cfg) (chroma_persist_directory cfg)]
      /\ (exists p,
            rag_pipeline (snd out) = Some p
            /\ conversation_memory p = ∅
            /\ config p = cfg
            /\ vectorstore (vector_store p)
               = match loaded with Ok vs => Some vs | Raise _ => None end)
      /\ (forall vs request,
            loaded = Ok vs -> collection vs = [] ->
            vectorstore_ready (health_check E (snd out)) = true
            /\ status_of (fst (query_knowledge_base E request (snd out))) = 503)).
Proof.
  intros cfg loaded out. subst cfg loaded out. unfold startup_event.
  destruct (clients (RAGConfig_default api_key)) as [[]|e0]; split.
  - discriminate.
  - intros _. unfold load_existing, load_vectorstore. simpl.
    destruct (chroma_open E (calls app) _ _) as [vs|e]; simpl.
    + split; [reflexivity|]. split; [reflexivity|]. split; [reflexivity|].
      split; [reflexivity|]. split; [eexists; repeat split|].
      intros vs' request [= <-] Hempty. split; [reflexivity|].
      unfold query_knowledge_base, store_truthy, Chroma_len. simpl.
      rewrite Hempty. reflexivity.
    + split; [reflexivity|]. split; [reflexivity|]. split; [reflexivity|].
      split; [reflexivity|]. split; [eexists; repeat split|]. discriminate.
  - intros e [= <-]. split; [reflexivity|]. intros Hnone.
    unfold health_check. simpl. now rewrite Hnone.
  - discriminate.
Qed.

Lemma memory_of_Some (session_id : option string) (sid : string) :
  memory_of session_id = Some sid -> session_id = Some sid /\ truthy sid = true.
Proof.
  unfold memory_of. destruct session_id as [s|]; [|discriminate].
  destruct (truthy s) eqn:Hs; [|discriminate]. now intros [= ->].
Qed.

(** The outcome of [query] on a pipeline that has a store, in terms of the
    outcome of the one chain call it makes. *)
Lemma query_outcome (E : External) self log q session_id vs :
  vectorstore (vector_store self) = Some vs ->
  snd (query E self log q session_id)
  = log ++ [CallChain vs (top_k_results (config self))
              (chat_history_of self session_id) q]
  /\ fst (fst (query E self log q session_id))
     = match run_chain E log vs (top_k_results (config self))
               (chat_history_of self session_id) q with
       | Ok (ans, docs) =>
           Ok {| qr_answer := ans;
                 qr_sources := map format_source docs;
                 qr_confidence := _calculate_confidence docs;
                 qr_session_id := session_id |}
       | Raise e => Raise e
       end
  /\ (is_ok (fst (fst (query E self log q session_id))) = false ->
      snd (fst (query E self log q session_id)) = with_session self session_id).
Proof.
  intros Hvs. unfold chat_history_of, with_session.
  destruct (memory_of session_id) as [sid|] eqn:Hmem.
  - apply memory_of_Some in Hmem as [-> Ht].
    rewrite (query_with_session E self log q sid Ht), Hvs. simpl.
    destruct (run_chain E log vs _ _ q) as [[ans docs]|e]; simpl;
      repeat split; discriminate.
  - rewrite (query_no_memory E self log q session_id Hmem), Hvs. simpl.
    destruct (run_chain E log vs _ _ q) as [[ans docs]|e]; simpl;
      repeat split; discriminate.
Qed.

Lemma py_repr_char_plain (c : ascii) :
  py_plain_char c = true -> py_repr_char "039"%char c = String c "".
Proof.
  destruct c as [[] [] [] [] [] [] [] []]; intros H;
    solve [discriminate H | reflexivity].
Qed.

Lemma py_repr_plain (s : string) :
  py_plain s = true -> py_repr s = "'" +:+ s +:+ "'".
Proof.
  intros Hs.
  assert (has_char "039"%char s = false /\ py_repr_body "039"%char s = s)
    as [Hq Hbody].
  { induction s as [|c s IH]; [now split|].
    cbn [py_plain] in Hs. apply andb_prop in Hs as [Hc Hs].
    destruct (IH Hs) as [Hq Hbody]. split.
    - cbn [has_char]. rewrite Hq, orb_false_r, Ascii.eqb_sym.
      unfold py_plain_char in Hc.
      destruct (Ascii.eqb c "039"%char); [|reflexivity].
      now rewrite andb_false_r in Hc.
    - change (py_repr_body "039"%char (String c s))
        with (py_repr_char "039"%char c +:+ py_repr_body "039"%char s).
      now rewrite Hbody, (py_repr_char_plain c Hc). }
  unfold py_repr. rewrite Hq. cbn [andb]. now rewrite Hbody.
Qed.

(** X11. On a store that holds chunks, when the chain raises, the query
    endpoint answers 500 with the detail [Query processing failed: ]
    followed by the text of the exception, which for a [KeyError] is its key
    between quotes. The chain was called once, with the history of the
    session, and the session of the request, if it has one, is registered
    all the same. *)
Theorem chain_failure_is_a_500_with_its_message
    (E : External) (request : QueryRequest) (p : RAGPipeline)
    (log : list ExternalCall) (vs : Chroma) (e : PyExn) :
  vectorstore (vector_store p) = Some vs ->
  collection vs <> [] ->
  run_chain E log vs (top_k_results (config p))
    (chat_history_of p (session_id request)) (question request) = Raise e ->
  query_knowledge_base E request {| rag_pipeline := Some p; calls := log |}
  = (HTTPException 500 ("Query processing failed: " +:+ exn_str e),
     {| rag_pipeline := Some (with_session p (session_id request));
        calls := log ++ [CallChain vs (top_k_results (config p))
                           (chat_history_of p (session_id request))
                           (question request)] |})
  /\ (forall key,
        e = KeyError key -> py_plain key = true ->
        fst (query_knowledge_base E request
               {| rag_pipeline := Some p; calls := log |})
        = HTTPException 500
            ("Query processing failed: " +:+ "'" +:+ key +:+ "'")).
Proof.
  intros Hvs Hne Hchain.
  assert (query_knowledge_base E request {| rag_pipeline := Some p; calls := log |}
          = (HTTPException 500 ("Query processing failed: " +:+ exn_str e),
             {| rag_pipeline := Some (with_session p (session_id request));
                calls := log ++ [CallChain vs (top_k_results (config p))
                                   (chat_history_of p (session_id request))
                                   (question request)] |})) as Hout.
  { unfold query_knowledge_base. simpl.
    rewrite Hvs, (store_truthy_Some vs Hne). simpl.
    destruct (query_outcome E p log (question request) (session_id request) vs Hvs)
      as (Hlog & Hres & Hself).
    destruct (query E p log (question request) (session_id request))
      as [[r p'] log'] eqn:Hq.
    simpl in *. rewrite Hchain in Hres. subst r log'.
    rewrite (Hself eq_refl). reflexivity. }
  split; [exact Hout|].
  intros key -> Hplain. rewrite Hout. simpl.
  now rewrite (py_repr_plain key Hplain).
Qed.

(** X12. On a store that holds chunks, a request with [include_sources]
    off that the chain answers is answered with an empty list of sources,
    and everything else as the chain gave it: the answer, the session id of
    the request, and the confidence, which still counts the documents the
    chain retrieved. *)
Theorem hidden_sources_leave_answer_and_confidence
    (E : External) (request : QueryRequest) (p : RAGPipeline)
    (log : list ExternalCall) (vs : Chroma) (ans : string)
    (docs : list Document) :
  vectorstore (vector_store p) = Some vs ->
  collection vs <> [] ->
  include_sources request = false ->
  run_chain E log vs (top_k_results (config p))
    (chat_history_of p (session_id request)) (question request) = Ok (ans, docs) ->
  fst (query_knowledge_base E request {| rag_pipeline := Some p; calls := log |})
  = HTTP200 {| answer := ans;
               sources := [];
               confidence := confidence_of_count (length docs);
               resp_session_id := session_id request;
               timestamp := utcnow E |}.
Proof.
  intros Hvs Hne Hinc Hchain. unfold query_knowledge_base. simpl.
  rewrite Hvs, (store_truthy_Some vs Hne). simpl.
  destruct (query_outcome E p log (question request) (session_id request) vs Hvs)
    as (_ & Hres & _).
  destruct (query E p log (question request) (session_id request))
    as [[r p'] log'] eqn:Hq.
  simpl in *. rewrite Hchain in Hres. subst r. rewrite Hinc. simpl.
  now rewrite confidence_table.
Qed.

(** ** Session ids *)

Lemma truthy_app_dash (s t : string) : truthy (s +:+ "-" +:+ t) = true.
Proof. destruct s; reflexivity. Qed.

(** X13. The id [POST /session] returns is the user id of the request when
    it has one that is not empty, and [anonymous] when it has none or an
    empty one, then a dash, then the first eight characters of the uuid. It
    is never empty, so the pipeline takes it as a session id: a query issued
    with it registers a session under exactly this id. The handler itself
    stores nothing. *)
Theorem created_session_id_names_a_session
    (E : External) (uuid_hex : string) (request : SessionRequest) :
  let id := new_session_id (create_session E uuid_hex request) in
  memory_of (Some id) = Some id
  /\ id = user_or_anonymous (user_id request) +:+ "-" +:+ String.substring 0 8 uuid_hex
  /\ len id = len (user_or_anonymous (user_id request)) + 1 + Z.min 8 (len uuid_hex)
  /\ user_or_anonymous (user_id request) <> ""
  /\ (forall u,
        user_id request = Some u -> u <> "" ->
        id = u +:+ "-" +:+ String.substring 0 8 uuid_hex)
  /\ ((user_id request = None \/ user_id request = Some "") ->
      id = "anonymous-" +:+ String.substring 0 8 uuid_hex)
  /\ (forall (self : RAGPipeline) log q,
        is_Some (conversation_memory (snd (fst (query E self log q (Some id)))) !! id)).
Proof.
  intros id. subst id. unfold create_session. simpl.
  set (user := user_or_anonymous (user_id request)).
  set (tail := String.substring 0 8 uuid_hex).
  assert (truthy (user +:+ "-" +:+ tail) = true) as Ht by apply truthy_app_dash.
  split; [unfold memory_of; now rewrite Ht|]. split; [reflexivity|].
  split; [|split; [|split; [|split]]].
  - assert (len tail = Z.min 8 (len uuid_hex)) as Htail.
    { unfold tail, len. now rewrite substring_0_length, Nat2Z.inj_min. }
    rewrite !len_app, Htail. change (len "-") with 1. lia.
  - unfold user, user_or_anonymous. destruct (user_id request) as [u|]; [|discriminate].
    destruct (truthy u) eqn:Hu; [|discriminate].
    intros ->. discriminate.
  - intros u Hu Hne. unfold user, user_or_anonymous. rewrite Hu.
    destruct u; [now contradiction Hne | reflexivity].
  - unfold user, user_or_anonymous. intros [-> | ->]; reflexivity.
  - intros self log q.
    rewrite (query_with_session E self log q _ Ht).
    destruct (get_or_create_memory_frame self (user +:+ "-" +:+ tail))
      as (_ & _ & _ & (m & Hm & _) & _).
    destruct (vectorstore (vector_store self)) as [vs|]; simpl; [|eauto].
    destruct (run_chain E log vs _ _ q) as [[ans docs]|e]; simpl; [|eauto].
    rewrite lookup_alter_eq, Hm. simpl. eauto.
Qed.

(** ** Statistics *)

Lemma with_session_size (self : RAGPipeline) (session_id : option string) :
  size (conversation_memory (with_session self session_id))
  = match memory_of session_id with
    | Some sid =>
        match conversation_memory self !! sid with
        | Some _ => size (conversation_memory self)
        | None => S (size (conversation_memory self))
        end
    | None => size (conversation_memory self)
    end.
Proof.
  unfold with_session. destruct (memory_of session_id) as [sid|]; [|reflexivity].
  unfold get_or_create_memory.
  destruct (conversation_memory self !! sid) eqn:Hm; [reflexivity|].
  simpl. now apply map_size_insert_None.
Qed.

Lemma query_sessions (E : External) self log q session_id :
  dom (conversation_memory (snd (fst (query E self log q session_id))))
  = dom (conversation_memory (with_session self session_id)).
Proof.
  unfold with_session.
  destruct (memory_of session_id) as [sid|] eqn:Hmem.
  - apply memory_of_Some in Hmem as [-> Ht].
    rewrite (query_with_session E self log q sid Ht).
    destruct (vectorstore (vector_store self)) as [vs|]; simpl; [|reflexivity].
    destruct (run_chain E log vs _ _ q) as [[ans docs]|e]; simpl; [|reflexivity].
    apply dom_alter_L.
  - now destruct (query_no_memory_frame E self log q session_id Hmem) as [-> _].
Qed.

(** What [GET /stats] answers on a store that holds chunks. *)
Lemma get_stats_with_store (E : External) (collection_count : Chroma -> Res Z)
    (app : App) (p : RAGPipeline) (vs : Chroma) :
  rag_pipeline app = Some p ->
  vectorstore (vector_store p) = Some vs ->
  collection vs <> [] ->
  get_stats E collection_count app
  = match collection_count vs with
    | Raise e => HTTPException 500 (exn_str e)
    | Ok count =>
        HTTP200 {| stats_total_chunks := count;
                   active_sessions := Z.of_nat (size (conversation_memory p));
                   stats_embedding_model := embedding_model (config p);
                   stats_llm_model := llm_model (config p);
                   stats_timestamp := utcnow E |}
    end.
Proof.
  intros Hp Hvs Hne. unfold get_stats. rewrite Hp, Hvs.
  destruct vs as [[|d c]]; [now contradiction Hne | reflexivity].
Qed.

(** X14. On a store that holds chunks and whose collection can be counted,
    [GET /stats] reports the number of sessions in the session store and the
    chunk count of the collection. A query raises the number of active
    sessions by one when it names a session the store does not hold, whether
    it succeeds or not, and leaves it as it is otherwise; it does not change
    the store object the chunks are counted on. *)
Theorem active_sessions_counts_the_sessions_queried
    (E : External) (collection_count : Chroma -> Res Z)
    (request : QueryRequest) (p : RAGPipeline) (log : list ExternalCall)
    (vs : Chroma) (n : Z) :
  vectorstore (vector_store p) = Some vs ->
  collection vs <> [] ->
  collection_count vs = Ok n ->
  let app := {| rag_pipeline := Some p; calls := log |} in
  let new_session :=
    match memory_of (session_id request) with
    | Some sid =>
        match conversation_memory p !! sid with Some _ => 0 | None => 1 end
    | None => 0
    end in
  exists s s',
    get_stats E collection_count app = HTTP200 s
    /\ get_stats E collection_count (snd (query_knowledge_base E request app))
       = HTTP200 s'
    /\ active_sessions s = Z.of_nat (size (conversation_memory p))
    /\ active_sessions s' = active_sessions s + new_session
    /\ stats_total_chunks s = n
    /\ stats_total_chunks s' = n.
Proof.
  intros Hvs Hne Hcount app new_session. subst app new_session.
  pose proof (store_truthy_Some vs Hne) as Htrue.
  rewrite (get_stats_with_store E collection_count
             {| rag_pipeline := Some p; calls := log |} p vs eq_refl Hvs Hne),
    Hcount.
  eexists.
  unfold query_knowledge_base. simpl. rewrite Hvs, Htrue. simpl.
  pose proof (query_sessions E p log (question request) (session_id request)) as Hdom.
  assert (vector_store (snd (fst (query E p log (question request)
                                    (session_id request)))) = vector_store p
          /\ config (snd (fst (query E p log (question request)
                                 (session_id request)))) = config p) as [Hv Hc].
  { destruct (memory_of (session_id request)) as [sid|] eqn:Hmem.
    - apply memory_of_Some in Hmem as [Hsid Ht]. rewrite Hsid.
      rewrite (query_with_session E p log _ sid Ht), Hvs. simpl.
      destruct (get_or_create_memory_frame p sid) as (Hv & Hc & _).
      destruct (run_chain E log vs _ _ _) as [[ans docs]|e]; simpl; now split.
    - destruct (query_no_memory_frame E p log (question request) _ Hmem) as [-> _].
      now split. }
  destruct (query E p log (question request) (session_id request))
    as [[r p'] log'] eqn:Hq.
  simpl in Hdom, Hv, Hc.
  assert (size (conversation_memory p')
          = size (conversation_memory (with_session p (session_id request))))
    as Hsize by (now rewrite <- !size_dom, Hdom).
  rewrite with_session_size in Hsize.
  assert (forall app' : App,
             rag_pipeline app' = Some p' ->
             get_stats E collection_count app'
             = HTTP200 {| stats_total_chunks := n;
                          active_sessions := Z.of_nat (size (conversation_memory p'));
                          stats_embedding_model := embedding_model (config p);
                          stats_llm_model := llm_model (config p);
                          stats_timestamp := utcnow E |}) as Hstats.
  { intros app' Happ.
    rewrite (get_stats_with_store E collection_count app' p' vs Happ); trivial.
    - now rewrite Hcount, Hc.
    - now rewrite Hv. }
  eexists. split; [reflexivity|]. split.
  - destruct r as [result|e]; [|now apply Hstats].
    destruct (if include_sources request then _ else _); now apply Hstats.
  - simpl. rewrite Hsize. repeat split.
    destruct (memory_of (session_id request)) as [sid|]; [|lia].
    destruct (conversation_memory p !! sid); lia.
Qed.

(** ** The ingestion task *)

Lemma initialize_from_documents_frame
    (E : External) (fs : FileSystem)
    (split_text : TextSplitter -> string -> Res (list string))
    (self : RAGPipeline) (log : list ExternalCall) (dir : string) :
  let out := initialize_from_documents E fs split_text self log dir in
  conversation_memory (snd (fst out)) = conversation_memory self
  /\ config (snd (fst out)) = config self
  /\ (is_Some (vectorstore (vector_store self)) ->
      is_Some (vectorstore (vector_store (snd (fst out)))))
  /\ (is_ok (fst (fst out)) = true ->
      is_Some (vectorstore (vector_store (snd (fst out))))).
Proof.
  intros out. subst out. unfold initialize_from_documents.
  destruct (DocumentProcessor_init (config self)) as [processor|e];
    [|simpl; repeat split; try discriminate; intros; trivial].
  destruct (encoding_for_model fs) as [[]|e];
    [|simpl; repeat split; try discriminate; intros; trivial].
  destruct (process_documents fs split_text processor dir) as [documents|e];
    [|simpl; repeat split; try discriminate; intros; trivial].
  destruct (create_vectorstore_cases E (vector_store self) log documents)
    as [(vs & _ & ->) | (e & ->)]; simpl.
  - split; [reflexivity|]. split; [reflexivity|]. split; eauto.
  - split; [reflexivity|]. split; [reflexivity|]. split; [trivial|].
    discriminate.
Qed.

(** X15. [POST /ingest] accepts the request exactly when a pipeline exists.
    The task it schedules never raises and never removes the pipeline: it
    leaves the sessions and the configuration alone, a service that was
    ready stays ready whatever happens to the ingestion, and a successful
    ingestion makes the service ready. *)
Theorem ingestion_task_never_breaks_the_service
    (E : External) (fs : FileSystem)
    (split_text : TextSplitter -> string -> Res (list string))
    (request : IngestRequest) (app : App) :
  (status_of (ingest_documents E request app) = 200 <-> is_Some (rag_pipeline app))
  /\ (rag_pipeline app = None -> ingest_task E fs split_text request app = app)
  /\ (forall p,
        rag_pipeline app = Some p ->
        exists p',
          rag_pipeline (ingest_task E fs split_text request app) = Some p'
          /\ conversation_memory p' = conversation_memory p
          /\ config p' = config p
          /\ (is_ok (fst (fst (initialize_from_documents E fs split_text p
                                 (calls app) (docs_directory request)))) = true ->
              vectorstore_ready
                (health_check E (ingest_task E fs split_text request app)) = true))
  /\ (vectorstore_ready (health_check E app) = true ->
      vectorstore_ready (health_check E (ingest_task E fs split_text request app))
      = true).
Proof.
  unfold ingest_documents, ingest_task, health_check. simpl.
  destruct (rag_pipeline app) as [p|] eqn:Hp.
  - pose proof (initialize_from_documents_frame E fs split_text p (calls app)
                  (docs_directory request)) as Hframe.
    simpl in Hframe.
    destruct (initialize_from_documents E fs split_text p (calls app)
                (docs_directory request)) as [[r p'] log'] eqn:Hinit.
    simpl in *. destruct Hframe as (Hm & Hc & Hkeep & Hok).
    split; [split; [eauto | reflexivity]|]. split; [discriminate|]. split.
    + intros p0 [= <-]. rewrite Hinit. exists p'. simpl. split; [reflexivity|].
      split; [assumption|]. split; [assumption|].
      intros Hr. destruct (Hok Hr) as [vs ->]. reflexivity.
    + intros Hready.
      destruct (vectorstore (vector_store p)) as [vs|]; [|discriminate].
      destruct Hkeep as [vs' ->]; eauto.
  - simpl. split; [split; [discriminate | intros [? H]; discriminate]|].
    split; [reflexivity|]. split; [discriminate|]. discriminate.
Qed.

(** X16. [DELETE /session] answers 503 and changes nothing while there is
    no pipeline. Otherwise it answers 200, issues no call to the outside and
    leaves the readiness of the store as it was; in the statistics the
    number of active sessions drops by one when the session existed and
    stays the same when it did not, and the chunk count is read from the
    same store object. *)
Theorem deleting_a_session_only_touches_the_session_store
    (E : External) (collection_count : Chroma -> Res Z)
    (sid : string) (app : App) :
  (rag_pipeline app = None ->
   api_clear_session sid app
   = (HTTPException 503 "RAG pipeline not initialized", app))
  /\ (forall p,
        rag_pipeline app = Some p ->
        let app' := snd (api_clear_session sid app) in
        fst (api_clear_session sid app) = HTTP200 ("Session " +:+ sid +:+ " cleared")
        /\ calls app' = calls app
        /\ vectorstore_ready (health_check E app')
           = vectorstore_ready (health_check E app)
        /\ (forall s,
              get_stats E collection_count app = HTTP200 s ->
              exists s',
                get_stats E collection_count app' = HTTP200 s'
                /\ stats_total_chunks s' = stats_total_chunks s
                /\ active_sessions s'
                   = active_sessions s
                     - (match conversation_memory p !! sid with
                        | Some _ => 1
                        | None => 0
                        end))).
Proof.
  unfold api_clear_session. split.
  - intros ->. reflexivity.
  - intros p Hp. rewrite Hp, clear_session_delete. simpl.
    split; [reflexivity|]. split; [reflexivity|].
    unfold health_check, get_stats. simpl. rewrite Hp.
    split; [reflexivity|].
    destruct (vectorstore (vector_store p)) as [vs|]; [|discriminate].
    match goal with
    | |- forall s, (if ?b then _ else _) = _ -> _ => destruct b; [discriminate|]
    end.
    destruct (collection_count vs) as [n|e]; [|discriminate].
    intros s [= <-]. eexists. split; [reflexivity|]. simpl.
    split; [reflexivity|].
    destruct (conversation_memory p !! sid) as [m|] eqn:Hm.
    + assert (is_Some (conversation_memory p !! sid)) as Hs by eauto.
      pose proof (map_size_delete_Some sid (conversation_memory p) Hs).
      pose proof (map_size_ne_0_lookup_2 (conversation_memory p) sid Hs). lia.
    + rewrite delete_id by assumption. lia.
Qed.

(** ** Scores that are not numbers *)

Lemma SFleb_not_nan (x y : SpecFloat.spec_float) :
  SpecFloat.SFleb x y = true ->
  SpecFloat.SFeqb y y = true /\ SpecFloat.SFeqb x x = true.
Proof.
  unfold SpecFloat.SFleb, SpecFloat.SFeqb.
  assert (forall z, z <> SpecFloat.S754_nan ->
                    SpecFloat.SFcompare z z = Some Eq) as Hrefl.
  { intros [s| [|] | |s m e] Hz; simpl; try reflexivity; try congruence.
    destruct s; rewrite Z.compare_refl, Pos.compare_cont_refl; reflexivity. }
  destruct x as [sx|sx| |sx mx ex], y as [sy|sy| |sy my ey];
    try discriminate; intros _;
    rewrite !Hrefl by discriminate; split; reflexivity.
Qed.

(** X17. [similarity_search] passes no candidate whose score is not a
    number, and with a threshold that is not a number it returns nothing.
    Without a store object it raises before any search; an exception of the
    search goes to the caller after the one search call. The number of
    results asked for is [k], and the [top_k_results] of the configuration
    when [k] is missing or 0. *)
Theorem similarity_search_never_returns_a_score_that_is_not_a_number
    (E : External) (self : VectorStore) (log : list ExternalCall)
    (query : string) (k : option Z) :
  (vectorstore self = None ->
   is_ok (fst (similarity_search E self log query k)) = false
   /\ snd (similarity_search E self log query k) = log)
  /\ (forall out,
        fst (similarity_search E self log query k) = Ok out ->
        Forall (fun c => PrimFloat.is_nan (snd c) = false) out
        /\ (out <> [] ->
            PrimFloat.is_nan (similarity_threshold (vs_config self)) = false))
  /\ (forall vs e,
        vectorstore self = Some vs ->
        similarity_search_with_score E log vs query (k_or_default self k) = Raise e ->
        similarity_search E self log query k
        = (Raise e, log ++ [CallSearch vs query (k_or_default self k)]))
  /\ k_or_default self None = top_k_results (vs_config self)
  /\ k_or_default self (Some 0) = top_k_results (vs_config self)
  /\ (forall n, n <> 0 -> k_or_default self (Some n) = n).
Proof.
  unfold similarity_search. split; [|split; [|split; [|split; [|split]]]].
  - intros ->. now split.
  - intros out.
    destruct (vectorstore self) as [vs|]; [|discriminate]. simpl.
    destruct (similarity_search_with_score E log vs query _) as [results|e];
      [|discriminate].
    simpl. intros [= <-].
    assert (forall c, In c (List.filter (above_threshold self) results) ->
                      PrimFloat.is_nan (snd c) = false
                      /\ PrimFloat.is_nan (similarity_threshold (vs_config self)) = false)
      as Hall.
    { intros c Hc. apply filter_In in Hc as [_ Hc]. unfold above_threshold in Hc.
      rewrite FloatAxioms.leb_spec in Hc. apply SFleb_not_nan in Hc as [Hs Ht].
      unfold PrimFloat.is_nan. rewrite !FloatAxioms.eqb_spec, Hs, Ht. now split. }
    split.
    + apply List.Forall_forall. intros c Hc. now apply Hall.
    + destruct (List.filter (above_threshold self) results) as [|c l];
        [congruence|]. intros _. apply (Hall c). now left.
  - intros vs e -> ->. reflexivity.
  - reflexivity.
  - reflexivity.
  - intros n Hn. unfold k_or_default.
    destruct (Z.eqb_spec n 0) as [H0|_]; [now contradiction Hn | reflexivity].
Qed.

(** ** The size of chunks *)

Lemma py_lstrip_len (s : string) : len (py_lstrip s) <= len s.
Proof.
  unfold len. induction s as [|c s IH]; simpl; [lia|].
  destruct (py_isspace c); simpl; lia.
Qed.

Lemma py_rstrip_len (s : string) : len (py_rstrip s) <= len s.
Proof.
  unfold len. induction s as [|c s IH]; simpl; [lia|].
  destruct (py_rstrip s) as [|c' s'].
  - destruct (py_isspace c); simpl; lia.
  - simpl in *. lia.
Qed.

Lemma py_strip_len (s : string) : len (py_strip s) <= len s.
Proof.
  unfold py_strip. pose proof (py_rstrip_len (py_lstrip s)).
  pose proof (py_lstrip_len s). lia.
Qed.

Lemma len_sconcat_cons (d : string) (l : list string) :
  len (sconcat (d :: l)) = len d + len (sconcat l).
Proof. change (sconcat (d :: l)) with (d +:+ sconcat l). apply len_app. Qed.

Lemma len_sconcat_snoc (l : list string) (d : string) :
  len (sconcat (l ++ [d])) = len (sconcat l) + len d.
Proof.
  rewrite sconcat_app, len_app. change (sconcat [d]) with (d +:+ "").
  now rewrite sapp_nil_r.
Qed.

Section ChunkSizes.

Import RecursiveCharacterTextSplitter.

Variable self : TextSplitter.
Hypothesis keep : _keep_separator self = true.
Hypothesis size_at_least_2 : 2 <= _chunk_size self.

Lemma join_docs_fits (docs : list string) (d : string) :
  _join_docs self docs "" = Some d ->
  d <> "" /\ len d <= len (sconcat docs).
Proof.
  unfold _join_docs. rewrite py_join_empty.
  set (text := if _strip_whitespace self then py_strip (sconcat docs)
               else sconcat docs).
  assert (len text <= len (sconcat docs)) as Hlen.
  { subst text. destruct (_strip_whitespace self); [apply py_strip_len | lia]. }
  destruct (String.eqb_spec text "") as [|Hne]; [discriminate|].
  intros [= <-]. now split.
Qed.

Lemma pop_front_exit (_len : Z) (current_doc : list string) :
  forall rest total',
    pop_front self _len 0 current_doc (len (sconcat current_doc))
    = Ok (rest, total') ->
    total' = len (sconcat rest)
    /\ keep_popping self _len 0 rest total' = false.
Proof.
  induction current_doc as [|d0 l IH]; intros rest total'; cbn [pop_front].
  - destruct (keep_popping self _len 0 [] (len (sconcat []))) eqn:Hk;
      [discriminate|]. intros [= <- <-]. now split.
  - destruct (keep_popping self _len 0 (d0 :: l) (len (sconcat (d0 :: l))))
      eqn:Hk.
    + replace (len (sconcat (d0 :: l))
               - (len d0 + (if 1 <? llen (d0 :: l) then 0 else 0)))
        with (len (sconcat l))
        by (rewrite len_sconcat_cons; destruct (1 <? llen (d0 :: l)); lia).
      apply IH.
    + intros [= <- <-]. now split.
Qed.

Lemma merge_step_keeps_fit docs cur (d : string) docs' cur' total' :
  Forall (fits_chunk_size self) docs ->
  len (sconcat cur) <= _chunk_size self ->
  below_chunk_size self d ->
  merge_step self "" (docs, cur, len (sconcat cur)) d = Ok (docs', cur', total') ->
  Forall (fits_chunk_size self) docs'
  /\ total' = len (sconcat cur')
  /\ len (sconcat cur') <= _chunk_size self.
Proof.
  intros Hdocs Htotal Hd. unfold merge_step. change (len "") with 0.
  replace (if 0 <? llen cur then 0 else 0) with 0 by (now destruct (0 <? llen cur)).
  destruct ((_chunk_size self <? len (sconcat cur) + len d + 0)
            && (0 <? llen cur)) eqn:Hcond.
  - destruct (pop_front self (len d) 0 cur (len (sconcat cur)))
      as [[rest t]|e] eqn:Hpop; [|discriminate].
    apply pop_front_exit in Hpop as [-> Hexit].
    cbn [res_bind fst snd].
    replace (if 1 <? llen (rest ++ [d]) then 0 else 0) with 0
      by (now destruct (1 <? llen (rest ++ [d]))).
    intros [= <- <- <-]. split; [|split].
    + destruct (_join_docs self cur "") as [doc|] eqn:Hjoin; [|assumption].
      apply Forall_app. split; [assumption|]. constructor; [|constructor].
      apply join_docs_fits in Hjoin as [Hne Hlen]. split; [assumption | lia].
    + rewrite len_sconcat_snoc. lia.
    + rewrite len_sconcat_snoc. unfold keep_popping in Hexit.
      apply orb_false_iff in Hexit as [_ Hexit].
      replace (if 0 <? llen rest then 0 else 0) with 0 in Hexit
        by (now destruct (0 <? llen rest)).
      pose proof (len_nonneg (sconcat rest)). unfold below_chunk_size in Hd.
      apply andb_false_iff in Hexit as [Hx | Hx]; apply Z.ltb_ge in Hx; lia.
  - cbn [res_bind].
    replace (if 1 <? llen (cur ++ [d]) then 0 else 0) with 0
      by (now destruct (1 <? llen (cur ++ [d]))).
    intros [= <- <- <-]. split; [assumption|].
    rewrite len_sconcat_snoc. split; [lia|].
    apply andb_false_iff in Hcond as [Hx | Hx]; apply Z.ltb_ge in Hx.
    + lia.
    + destruct cur as [|x cur]; [|unfold llen in Hx; simpl in Hx; lia].
      unfold below_chunk_size in Hd. change (len (sconcat [])) with 0. lia.
Qed.

Lemma merge_loop_keeps_fit (splits : list string) :
  Forall (below_chunk_size self) splits ->
  forall docs cur docs' cur' total',
    Forall (fits_chunk_size self) docs ->
    len (sconcat cur) <= _chunk_size self ->
    merge_loop self "" splits (docs, cur, len (sconcat cur))
    = Ok (docs', cur', total') ->
    Forall (fits_chunk_size self) docs' /\ len (sconcat cur') <= _chunk_size self.
Proof.
  induction 1 as [|d splits Hd _ IH]; intros docs cur docs' cur' total' Hdocs Hcur;
    cbn [merge_loop].
  - intros [= <- <- _]. now split.
  - destruct (merge_step self "" (docs, cur, len (sconcat cur)) d)
      as [[[docs1 cur1] total1]|e] eqn:Hstep; [|discriminate].
    destruct (merge_step_keeps_fit _ _ _ _ _ _ Hdocs Hcur Hd Hstep)
      as (Hdocs1 & -> & Hcur1).
    cbn [res_bind]. now apply IH.
Qed.

Lemma merge_splits_fit (splits out : list string) :
  Forall (below_chunk_size self) splits ->
  _merge_splits self splits "" = Ok out ->
  Forall (fits_chunk_size self) out.
Proof.
  intros Hsmall. unfold _merge_splits.
  destruct (merge_loop self "" splits ([], [], 0)) as [[[docs cur] total]|e] eqn:Hloop;
    [|discriminate].
  change 0 with (len (sconcat [])) in Hloop.
  destruct (merge_loop_keeps_fit splits Hsmall [] [] docs cur total) as [Hdocs Hcur];
    [constructor | change (len (sconcat [])) with 0; lia | exact Hloop |].
  cbn [res_bind]. intros [= <-].
  destruct (_join_docs self cur "") as [doc|] eqn:Hjoin; [|assumption].
  apply Forall_app. split; [assumption|]. constructor; [|constructor].
  apply join_docs_fits in Hjoin as [Hne Hlen]. split; [assumption | lia].
Qed.

Lemma flush_fit (final_chunks good out : list string) :
  Forall (fits_chunk_size self) final_chunks ->
  Forall (below_chunk_size self) good ->
  flush self "" final_chunks good = Ok out ->
  Forall (fits_chunk_size self) out.
Proof.
  intros Hfinal Hgood. unfold flush. destruct good as [|s good].
  - now intros [= <-].
  - destruct (_merge_splits self (s :: good) "") as [merged|e] eqn:Hm;
      [|discriminate].
    cbn [res_bind]. intros [= <-]. apply Forall_app. split; [assumption|].
    now apply (merge_splits_fit (s :: good)).
Qed.

Lemma split_loop_fit (recurse : option (string -> Res (list string)))
    (splits : list string) :
  (forall rec s out,
      recurse = Some rec -> rec s = Ok out ->
      Forall (fits_chunk_size self) out) ->
  (recurse = None -> Forall (below_chunk_size self) splits) ->
  forall final_chunks good out,
    Forall (fits_chunk_size self) final_chunks ->
    Forall (below_chunk_size self) good ->
    split_loop self "" recurse splits final_chunks good = Ok out ->
    Forall (fits_chunk_size self) out.
Proof.
  intros Hrec. induction splits as [|s splits IH]; intros Hnone final good out
    Hfinal Hgood; cbn [split_loop].
  - now apply flush_fit.
  - assert (recurse = None -> Forall (below_chunk_size self) splits) as Hnone'.
    { intros H. specialize (Hnone H). now inversion Hnone. }
    destruct (Z.ltb_spec (len s) (_chunk_size self)) as [Hs|Hs].
    + apply IH; [assumption | assumption |].
      apply Forall_app. split; [assumption|]. now constructor.
    + destruct (flush self "" final good) as [final'|e] eqn:Hflush;
        [|discriminate].
      apply (flush_fit _ _ _ Hfinal Hgood) in Hflush.
      cbn [res_bind]. destruct recurse as [rec|].
      * destruct (rec s) as [other|e] eqn:Hother; [|discriminate].
        cbn [res_bind]. apply IH; [assumption| |constructor].
        apply Forall_app. split; [assumption|]. now apply (Hrec rec s).
      * specialize (Hnone eq_refl). inversion Hnone as [|? ? Hsmall _]; subst.
        unfold below_chunk_size in Hsmall. lia.
Qed.

Lemma py_chars_small (text : string) :
  Forall (below_chunk_size self) (List.filter nonempty (py_chars text)).
Proof.
  apply List.Forall_forall. intros s Hs. apply filter_In in Hs as [Hs _].
  induction text as [|c t IH]; simpl in Hs; [contradiction|].
  destruct Hs as [<- | Hs]; [|now apply IH].
  unfold below_chunk_size, len. simpl. lia.
Qed.

Lemma split_with_fit (sep : string)
    (recurse : option (string -> Res (list string))) (text : string)
    (out : list string) :
  (forall rec s out,
      recurse = Some rec -> rec s = Ok out ->
      Forall (fits_chunk_size self) out) ->
  (recurse = None -> sep = "") ->
  split_with self sep recurse text = Ok out ->
  Forall (fits_chunk_size self) out.
Proof.
  intros Hrec Hnone. unfold split_with. rewrite keep.
  destruct (_split_text_with_regex text sep true) as [splits|e] eqn:Hsplits;
    [|discriminate].
  cbn [res_bind]. intros Hloop.
  apply (split_loop_fit recurse splits Hrec) in Hloop; try assumption;
    try constructor.
  intros Hr. rewrite (Hnone Hr) in Hsplits.
  unfold _split_text_with_regex in Hsplits. simpl in Hsplits.
  injection Hsplits as <-. apply py_chars_small.
Qed.

Lemma _split_text_fit (seps : list string) :
  last seps = Some "" ->
  forall text out,
    _split_text self seps text = Ok out -> Forall (fits_chunk_size self) out.
Proof.
  induction seps as [|s rest IH]; [discriminate|]. intros Hlast text out.
  cbn [_split_text].
  destruct (String.eqb_spec s "") as [->|Hs].
  - apply split_with_fit; [discriminate | reflexivity].
  - destruct rest as [|s2 rest]; [simpl in Hlast; congruence|].
    assert (last (s2 :: rest) = Some "") as Hlast' by exact Hlast.
    destruct (py_contains s text).
    + apply split_with_fit; [|discriminate].
      intros rec s' out' [= <-]. now apply IH.
    + now apply IH.
Qed.

End ChunkSizes.

Lemma in_chunks_of_split
    (split_text : TextSplitter -> string -> Res (list string))
    (self : DocumentProcessor) (documents : list Document)
    (pieces : list (list string)) (chunk : Document) :
  splits_to split_text self documents pieces ->
  In chunk (concat (zip_with chunks_of documents pieces)) ->
  exists doc ps,
    In doc documents
    /\ split_text (text_splitter self) (page_content doc) = Ok ps
    /\ In (page_content chunk) ps.
Proof.
  induction 1 as [|doc ps documents pieces Hps _ IH]; simpl; [contradiction|].
  rewrite in_app_iff. intros [Hin | Hin].
  - exists doc, ps. split; [now left|]. split; [assumption|].
    apply list_elem_of_In, list_elem_of_lookup in Hin as [i Hi].
    apply chunks_of_lookup in Hi as [Hi _].
    apply list_elem_of_In, list_elem_of_lookup. eauto.
  - destruct (IH Hin) as (d & p & Hd & Hp & Hc). exists d, p.
    split; [now right|]. now split.
Qed.

(** X18. With the five separators the processor configures, the last of
    which is the empty string, and a chunk size of at least 2, no chunk the
    processor produces is empty and none is longer than [chunk_size]. *)
Theorem chunks_are_not_empty_and_fit_chunk_size
    (cfg : RAGConfig) (p : DocumentProcessor) (documents out : list Document) :
  DocumentProcessor_init cfg = Ok p ->
  2 <= chunk_size cfg ->
  chunk_documents RecursiveCharacterTextSplitter.split_text p documents = Ok out ->
  Forall (fun chunk =>
            page_content chunk <> ""
            /\ len (page_content chunk) <= chunk_size cfg) out.
Proof.
  intros Hinit Hsize Hout.
  apply DocumentProcessor_init_splitter in Hinit as [_ Hts].
  unfold chunk_documents in Hout.
  destruct (chunk_loop_inv _ _ _ _ _ Hout) as [pieces Hpieces].
  rewrite (chunk_loop_ok _ _ _ _ Hpieces) in Hout. injection Hout as <-.
  apply List.Forall_forall. intros chunk Hchunk. simpl in Hchunk.
  destruct (in_chunks_of_split _ _ _ _ _ Hpieces Hchunk)
    as (doc & ps & _ & Hps & Hin).
  unfold RecursiveCharacterTextSplitter.split_text in Hps.
  assert (_chunk_size (text_splitter p) = chunk_size cfg) as Hcs by now rewrite Hts.
  assert (_keep_separator (text_splitter p) = true) as Hkeep by now rewrite Hts.
  assert (last (_separators (text_splitter p)) = Some "") as Hlast
    by now rewrite Hts.
  assert (2 <= _chunk_size (text_splitter p)) as Hsize' by lia.
  pose proof (_split_text_fit (text_splitter p) Hkeep Hsize' _ Hlast _ _ Hps)
    as Hall.
  rewrite List.Forall_forall in Hall. rewrite <- Hcs. now apply Hall.
Qed.

Lemma failed_query_sample :
  snd (fst (query sample_world (sample_pipeline None) [] "What is a unit test?"
              (Some "s1")))
  = get_or_create_memory (sample_pipeline None) "s1"
  /\ history (snd (fst (query sample_world (sample_pipeline None) []
                          "What is a unit test?" (Some "s1")))) "s1"
     = history (sample_pipeline None) "s1"
  /\ is_Some (conversation_memory
                (snd (fst (query sample_world (sample_pipeline None) []
                             "What is a unit test?" (Some "s1")))) !! "s1")
  /\ (conversation_memory (sample_pipeline None) !! "s1" = None ->
      conversation_memory
        (snd (fst (query sample_world (sample_pipeline None) []
                     "What is a unit test?" (Some "s1")))) !! "s1"
      = Some new_memory).
Proof.
  apply (failed_query_records_no_turn_but_keeps_the_session sample_world);
    reflexivity.
Defined.

Lemma other_session_sample :
  conversation_memory
    (snd (fst (query sample_world (snd (fst first_query)) (snd first_query)
                 "What are DORA metrics?" (Some "s2")))) !! "s1"
  = conversation_memory (snd (fst first_query)) !! "s1".
Proof.
  apply (query_leaves_other_sessions_alone sample_world). discriminate.
Defined.

Lemma follow_up_query_sample :
  exists vs,
    vectorstore (vector_store ready_pipeline) = Some vs
    /\ snd (query sample_world (snd (fst first_query)) (snd first_query)
              "And how do I start?" (Some "s1"))
       = [] ++ [CallChain vs (top_k_results (config ready_pipeline))
                  (Some (history ready_pipeline "s1"))
                  "What is test-driven development?";
                CallChain vs (top_k_results (config ready_pipeline))
                  (Some (history ready_pipeline "s1"
                         ++ [HumanMessage "What is test-driven development?";
                             AIMessage (qr_answer first_result)]))
                  "And how do I start?"].
Proof.
  apply (next_query_carries_the_previous_turn sample_world ready_pipeline
           (snd (fst first_query)) [] (snd first_query)
           "What is test-driven development?" "And how do I start?" "s1"
           first_result).
  - reflexivity.
  - vm_compute. reflexivity.
Defined.

Lemma query_after_clear_sample :
  history (snd (clear_session (snd (fst first_query)) "s1")) "s1" = []
  /\ snd (query sample_world (snd (clear_session (snd (fst first_query)) "s1"))
            [] "What is a unit test?" (Some "s1"))
     = [] ++ [CallChain {| collection := sample_docs |}
                (top_k_results (config (snd (fst first_query)))) (Some [])
                "What is a unit test?"]
  /\ (forall r self' log',
        query sample_world (snd (clear_session (snd (fst first_query)) "s1"))
          [] "What is a unit test?" (Some "s1") = (Ok r, self', log') ->
        history self' "s1"
        = [HumanMessage "What is a unit test?"; AIMessage (qr_answer r)]).
Proof.
  apply (query_after_clear_starts_a_fresh_history sample_world); reflexivity.
Defined.

Lemma source_previews_sample :
  Forall (fun s => 3 <= len (sd_content s) <= 203) (qr_sources first_result)
  /\ (forall doc : Document,
        len (sd_content (format_source doc))
        = Z.min 200 (len (page_content doc)) + 3
        /\ sd_content (format_source doc)
           = String.substring 0 200 (page_content doc) +:+ "..."
        /\ page_content doc
           = String.substring 0 200 (page_content doc)
             +:+ sdrop 200 (page_content doc)
        /\ (metadata doc !! "source" = None ->
            sd_source (format_source doc) = MStr "Unknown")
        /\ (metadata doc !! "file_name" = None ->
            sd_file_name (format_source doc) = MStr "Unknown")).
Proof.
  apply (source_previews_are_bounded sample_world ready_pipeline
           (snd (fst first_query)) [] (snd first_query)
           "What is test-driven development?" (Some "s1")).
  vm_compute. reflexivity.
Defined.

Lemma processed_sample :
  Forall (fun chunk =>
            exists doc (i n : nat),
              In doc (load_documents_from_directory sample_fs "docs")
              /\ (forall key v, metadata doc !! key = Some v ->
                                metadata chunk !! key = Some v)
              /\ dom (metadata chunk)
                 = loader_keys ∪ {[ "chunk_index"; "total_chunks" ]}
              /\ metadata chunk !! "chunk_index" = Some (MInt (Z.of_nat i))
              /\ metadata chunk !! "total_chunks" = Some (MInt (Z.of_nat n))
              /\ (i < n)%nat)
         sample_processed.
Proof.
  apply (processed_chunks_keep_the_loader_fields sample_fs
           RecursiveCharacterTextSplitter.split_text
           (small_processor small_config) "docs").
  vm_compute. reflexivity.
Defined.

Lemma chain_failure_sample :
  query_knowledge_base failing_world
    {| question := "What is a unit test?"; session_id := Some "s1";
       include_sources := true |}
    {| rag_pipeline := Some ready_pipeline; calls := [] |}
  = (HTTPException 500
       ("Query processing failed: " +:+ exn_str (KeyError "answer")),
     {| rag_pipeline := Some (with_session ready_pipeline (Some "s1"));
        calls := [] ++ [CallChain {| collection := sample_docs |}
                          (top_k_results (config ready_pipeline))
                          (chat_history_of ready_pipeline (Some "s1"))
                          "What is a unit test?"] |})
  /\ (forall key,
        KeyError "answer" = KeyError key -> py_plain key = true ->
        fst (query_knowledge_base failing_world
               {| question := "What is a unit test?"; session_id := Some "s1";
                  include_sources := true |}
               {| rag_pipeline := Some ready_pipeline; calls := [] |})
        = HTTPException 500
            ("Query processing failed: " +:+ "'" +:+ key +:+ "'")).
Proof.
  apply (chain_failure_is_a_500_with_its_message failing_world
           {| question := "What is a unit test?"; session_id := Some "s1";
              include_sources := true |});
    [reflexivity | discriminate | reflexivity].
Defined.

Lemma hidden_sources_sample :
  fst (query_knowledge_base sample_world
         {| question := "What is a unit test?"; session_id := Some "s1";
            include_sources := false |}
         {| rag_pipeline := Some ready_pipeline; calls := [] |})
  = HTTP200 {| answer := "Answer to: What is a unit test?";
               sources := [];
               confidence := confidence_of_count (length sample_docs);
               resp_session_id := Some "s1";
               timestamp := utcnow sample_world |}.
Proof.
  apply (hidden_sources_leave_answer_and_confidence sample_world
           {| question := "What is a unit test?"; session_id := Some "s1";
              include_sources := false |}
           ready_pipeline [] {| collection := sample_docs |});
    [reflexivity | discriminate | reflexivity | reflexivity].
Defined.

Lemma active_sessions_sample :
  exists s s',
    get_stats sample_world sample_count
      {| rag_pipeline := Some ready_pipeline; calls := [] |} = HTTP200 s
    /\ get_stats sample_world sample_count
         (snd (query_knowledge_base sample_world
                 {| question := "What is a unit test?"; session_id := Some "s1";
                    include_sources := true |}
                 {| rag_pipeline := Some ready_pipeline; calls := [] |}))
       = HTTP200 s'
    /\ active_sessions s = Z.of_nat (size (conversation_memory ready_pipeline))
    /\ active_sessions s'
       = active_sessions s
         + match memory_of (Some "s1") with
           | Some sid =>
               match conversation_memory ready_pipeline !! sid with
               | Some _ => 0
               | None => 1
               end
           | None => 0
           end
    /\ stats_total_chunks s = 3
    /\ stats_total_chunks s' = 3.
Proof.
  apply (active_sessions_counts_the_sessions_queried sample_world sample_count
           {| question := "What is a unit test?"; session_id := Some "s1";
              include_sources := true |}
           ready_pipeline [] {| collection := sample_docs |} 3);
    [reflexivity | discriminate | reflexivity].
Defined.

Lemma chunk_sizes_sample :
  Forall (fun chunk =>
            page_content chunk <> ""
            /\ len (page_content chunk) <= chunk_size small_config)
         (concat (zip_with chunks_of sample_docs sample_pieces)).
Proof.
  apply (chunks_are_not_empty_and_fit_chunk_size small_config
           (small_processor small_config) sample_docs).
  - reflexivity.
  - vm_compute. discriminate.
  - vm_compute. reflexivity.
Defined.

Lemma chunk_documents_returns_sample :
  exists pieces,
    splits_to RecursiveCharacterTextSplitter.split_text
      (small_processor small_config) sample_docs pieces
    /\ chunk_documents RecursiveCharacterTextSplitter.split_text
         (small_processor small_config) sample_docs
       = Ok (concat (zip_with chunks_of sample_docs pieces)).
Proof.
  apply (chunk_documents_returns small_config).
  - reflexivity.
  - vm_compute. discriminate.
Defined.
